(** * Life Timer: the time-accrual / decay state machine

    A shallow embedding of [src/context/TimerContext.tsx] (the timer
    provider: catch-up reconciliation, per-second tick, mode setter,
    penalty, quest and inventory actions), of the constants of
    [src/types], of the quest form [src/app/quests/new/page.tsx] and of
    the sibling reconciliation routine [calculateElapsedTime].

    JavaScript numbers are modelled by canonical rationals [Qc]: every
    quantity the provider computes is an integer or a half-integer, on
    which double arithmetic is exact as long as magnitudes stay below
    2^52.  Timestamps ([Date.now()]) are integers of milliseconds. *)

From Stdlib Require Import ZArith QArith Qcanon Qround Qreduction.
From Stdlib Require Import List String Ascii Bool Lia Lqa.
From Stdlib Require Import DecimalString.
Import ListNotations.

Local Open Scope Qc_scope.

(** ** JavaScript primitives used by the provider *)

Module JS.

Abbreviation number := Qc.

(** An integer seen as a number. *)
Definition ofZ (z : Z) : number := Q2Qc (inject_Z z).

(** [Math.floor]. *)
Definition Math_floor (x : number) : number := ofZ (Qfloor x).

(** [Math.max(a, b)]. *)
Definition Math_max (a b : number) : number :=
  match a ?= b with
  | Lt => b
  | _ => a
  end.

(** [x === y] on numbers. *)
Definition strict_eq (x y : number) : bool :=
  if Qc_eq_dec x y then true else false.

(** [x <= y] on numbers. *)
Definition lessEq (x y : number) : bool :=
  match x ?= y with
  | Gt => false
  | _ => true
  end.

(** [ids.includes(id)] on an array of strings. *)
Definition includes (ids : list string) (id : string) : bool :=
  existsb (String.eqb id) ids.

(** White space recognised by [trim] and [parseInt], restricted to the
    one-byte characters: TAB, LF, VT, FF, CR and SPACE. *)
Definition isWhiteSpace (c : ascii) : bool :=
  let n := nat_of_ascii c in
  (Nat.eqb n 9 || Nat.eqb n 10 || Nat.eqb n 11 || Nat.eqb n 12
   || Nat.eqb n 13 || Nat.eqb n 32)%bool.

Fixpoint trimStart (s : string) : string :=
  match s with
  | EmptyString => EmptyString
  | String c rest => if isWhiteSpace c then trimStart rest else s
  end.

Fixpoint rev_string (acc s : string) : string :=
  match s with
  | EmptyString => acc
  | String c rest => rev_string (String c acc) rest
  end.

(** [s.trim()]. *)
Definition trim (s : string) : string :=
  rev_string EmptyString (trimStart (rev_string EmptyString (trimStart s))).

Definition digit (c : ascii) : option Z :=
  let n := nat_of_ascii c in
  if (Nat.leb 48 n && Nat.leb n 57)%bool then Some (Z.of_nat (n - 48)) else None.

(** The longest prefix of decimal digits, read as an integer; [None] when
    the prefix is empty. *)
Fixpoint digits (acc : option Z) (s : string) : option Z :=
  match s with
  | EmptyString => acc
  | String c rest =>
      match digit c with
      | Some d =>
          digits (Some (match acc with
                        | Some a => 10 * a + d
                        | None => d
                        end)%Z) rest
      | None => acc
      end
  end.

(** [parseInt(s, 10)]; [None] stands for [NaN]. *)
Definition parseInt (s : string) : option Z :=
  match trimStart s with
  | String "-"%char rest => option_map Z.opp (digits None rest)
  | String "+"%char rest => digits None rest
  | t => digits None t
  end.

End JS.

Import JS.

(** ** Core types ([src/types]) *)

Inductive Mode : Type := WORK | PLAY | NOTHING.

Record Quest : Type := mkQuest {
  quest_id : string;
  quest_title : string;
  rewardMinutes : number
}.

Record InventoryItem : Type := mkItem {
  id : string;
  questId : string;
  title : string;
  minutes : number;
  createdAt : Z
}.

Record AppState : Type := mkAppState {
  workElapsedSeconds : number;
  playBalanceSeconds : number;
  mode : Mode;
  lastTickTimestamp : Z;
  quests : list Quest;
  inventory : list InventoryItem
}.

(** Play gain rate: 0.5 (10 min work = 5 min play). *)
Definition PLAY_GAIN_RATE : number := Q2Qc (1 # 2).

(** Penalty amount in seconds (5 minutes). *)
Definition PENALTY_SECONDS : number := ofZ 300.

(** ** The timer provider ([src/context/TimerContext.tsx]) *)

Module TimerContext.

(** [Math.floor((now - lastTickTimestamp) / 1000)], on integer
    milliseconds. *)
Definition elapsedSeconds (now : Z) (st : AppState) : Z :=
  ((now - lastTickTimestamp st) / 1000)%Z.

(** The state updater of the catch-up branch of the main timer effect.
    The second component tells whether [triggerPlayEndedNotification] was
    called. *)
Definition catchUpUpdate (elapsed : Z) (now : Z) (prev : AppState)
  : AppState * bool :=
  match mode prev with
  | WORK =>
      ({| workElapsedSeconds := workElapsedSeconds prev + ofZ elapsed;
          playBalanceSeconds :=
            playBalanceSeconds prev
            + Math_floor (ofZ elapsed * PLAY_GAIN_RATE);
          mode := WORK;
          lastTickTimestamp := now;
          quests := quests prev;
          inventory := inventory prev |}, false)
  | PLAY =>
      let newPlayBalance :=
        Math_max 0 (playBalanceSeconds prev - ofZ elapsed) in
      let ended := strict_eq newPlayBalance 0 in
      ({| workElapsedSeconds := workElapsedSeconds prev;
          playBalanceSeconds := newPlayBalance;
          mode := if ended then NOTHING else PLAY;
          lastTickTimestamp := now;
          quests := quests prev;
          inventory := inventory prev |}, ended)
  | NOTHING =>
      ({| workElapsedSeconds := workElapsedSeconds prev;
          playBalanceSeconds := playBalanceSeconds prev;
          mode := NOTHING;
          lastTickTimestamp := now;
          quests := quests prev;
          inventory := inventory prev |}, false)
  end.

(** The catch-up part of the main timer effect, run at time [now] on the
    current state: it only fires when more than one whole second has
    passed since the last tick and the initial load is over. *)
Definition catchUp (isInitialLoad : bool) (now : Z) (st : AppState)
  : AppState * bool :=
  let elapsed := elapsedSeconds now st in
  if ((1 <? elapsed)%Z && negb isInitialLoad)%bool
  then catchUpUpdate elapsed now st
  else (st, false).

(** Catch-up reconciliation once the initial load is over, as a function
    on snapshots; the state read by the effect and the state handed to the
    updater are the same snapshot. *)
Definition reconcile (st : AppState) (now : Z) : AppState :=
  fst (catchUp false now st).

(** Whether reconciling at [now] emits the play-ended signal. *)
Definition reconcile_ended (st : AppState) (now : Z) : bool :=
  snd (catchUp false now st).

(** The state updater run by the one-second interval. *)
Definition tick (currentTime : Z) (prev : AppState) : AppState * bool :=
  match mode prev with
  | WORK =>
      ({| workElapsedSeconds := workElapsedSeconds prev + 1;
          playBalanceSeconds := playBalanceSeconds prev + PLAY_GAIN_RATE;
          mode := WORK;
          lastTickTimestamp := currentTime;
          quests := quests prev;
          inventory := inventory prev |}, false)
  | PLAY =>
      let newPlayBalance := Math_max 0 (playBalanceSeconds prev - 1) in
      let ended := strict_eq newPlayBalance 0 in
      ({| workElapsedSeconds := workElapsedSeconds prev;
          playBalanceSeconds := newPlayBalance;
          mode := if ended then NOTHING else PLAY;
          lastTickTimestamp := currentTime;
          quests := quests prev;
          inventory := inventory prev |}, ended)
  | NOTHING =>
      ({| workElapsedSeconds := workElapsedSeconds prev;
          playBalanceSeconds := playBalanceSeconds prev;
          mode := NOTHING;
          lastTickTimestamp := currentTime;
          quests := quests prev;
          inventory := inventory prev |}, false)
  end.

(** [setMode]: the second component tells whether the request was
    rejected (the alert was shown). *)
Definition setMode (now : Z) (newMode : Mode) (st : AppState)
  : AppState * bool :=
  match newMode with
  | PLAY =>
      if lessEq (playBalanceSeconds st) 0
      then (st, true)
      else ({| workElapsedSeconds := workElapsedSeconds st;
               playBalanceSeconds := playBalanceSeconds st;
               mode := newMode;
               lastTickTimestamp := now;
               quests := quests st;
               inventory := inventory st |}, false)
  | _ =>
      ({| workElapsedSeconds := workElapsedSeconds st;
          playBalanceSeconds := playBalanceSeconds st;
          mode := newMode;
          lastTickTimestamp := now;
          quests := quests st;
          inventory := inventory st |}, false)
  end.

Definition applyPenalty (prev : AppState) : AppState :=
  let newWorkElapsed :=
    Math_max 0 (workElapsedSeconds prev - PENALTY_SECONDS) in
  let playPenalty := Math_floor (PENALTY_SECONDS * PLAY_GAIN_RATE) in
  let newPlayBalance := Math_max 0 (playBalanceSeconds prev - playPenalty) in
  {| workElapsedSeconds := newWorkElapsed;
     playBalanceSeconds := newPlayBalance;
     mode := mode prev;
     lastTickTimestamp := lastTickTimestamp prev;
     quests := quests prev;
     inventory := inventory prev |}.

(** [addQuest]; [uuid] is the value of [crypto.randomUUID()]. *)
Definition addQuest (uuid : string) (title : string) (rewardMinutes : number)
  (prev : AppState) : AppState :=
  let newQuest := mkQuest uuid title rewardMinutes in
  {| workElapsedSeconds := workElapsedSeconds prev;
     playBalanceSeconds := playBalanceSeconds prev;
     mode := mode prev;
     lastTickTimestamp := lastTickTimestamp prev;
     quests := quests prev ++ [newQuest];
     inventory := inventory prev |}.

Definition deleteQuest (qid : string) (prev : AppState) : AppState :=
  {| workElapsedSeconds := workElapsedSeconds prev;
     playBalanceSeconds := playBalanceSeconds prev;
     mode := mode prev;
     lastTickTimestamp := lastTickTimestamp prev;
     quests := filter (fun q => negb (String.eqb (quest_id q) qid)) (quests prev);
     inventory := inventory prev |}.

(** [claimQuest]; [uuid] is [crypto.randomUUID()], [now] is [Date.now()]. *)
Definition claimQuest (uuid : string) (now : Z) (quest : Quest)
  (prev : AppState) : AppState :=
  let newItem :=
    mkItem uuid (quest_id quest) (quest_title quest) (rewardMinutes quest) now in
  {| workElapsedSeconds := workElapsedSeconds prev;
     playBalanceSeconds := playBalanceSeconds prev;
     mode := mode prev;
     lastTickTimestamp := lastTickTimestamp prev;
     quests := quests prev;
     inventory := inventory prev ++ [newItem] |}.

(** [selectedItems.reduce((sum, item) => sum + item.minutes, 0)]. *)
Definition totalMinutes (selectedItems : list InventoryItem) : number :=
  fold_left (fun sum item => sum + minutes item) selectedItems 0.

Definition useInventoryItems (ids : list string) (prev : AppState) : AppState :=
  let selectedItems := filter (fun item => includes ids (id item)) (inventory prev) in
  let totalSeconds := totalMinutes selectedItems * ofZ 60 in
  {| workElapsedSeconds := workElapsedSeconds prev;
     playBalanceSeconds := playBalanceSeconds prev + totalSeconds;
     mode := mode prev;
     lastTickTimestamp := lastTickTimestamp prev;
     quests := quests prev;
     inventory := filter (fun item => negb (includes ids (id item))) (inventory prev) |}.

End TimerContext.

(** ** The sibling provider that reconciles with [calculateElapsedTime] *)

Module ElapsedTimeProvider.

(** [calculateElapsedTime], called when the page becomes visible again:
    a no-op unless at least one whole second has passed. *)
Definition calculateElapsedTime (now : Z) (st : AppState) : AppState * bool :=
  let elapsed := ((now - lastTickTimestamp st) / 1000)%Z in
  if (elapsed <=? 0)%Z then (st, false)
  else
    match mode st with
    | WORK =>
        ({| workElapsedSeconds := workElapsedSeconds st + ofZ elapsed;
            playBalanceSeconds :=
              playBalanceSeconds st + ofZ elapsed * PLAY_GAIN_RATE;
            mode := WORK;
            lastTickTimestamp := now;
            quests := quests st;
            inventory := inventory st |}, false)
    | PLAY =>
        let newBalance := playBalanceSeconds st - ofZ elapsed in
        let playBalance := Math_max 0 newBalance in
        let ended := strict_eq playBalance 0 in
        ({| workElapsedSeconds := workElapsedSeconds st;
            playBalanceSeconds := playBalance;
            mode := if ended then NOTHING else PLAY;
            lastTickTimestamp := now;
            quests := quests st;
            inventory := inventory st |}, ended)
    | NOTHING =>
        ({| workElapsedSeconds := workElapsedSeconds st;
            playBalanceSeconds := playBalanceSeconds st;
            mode := NOTHING;
            lastTickTimestamp := now;
            quests := quests st;
            inventory := inventory st |}, false)
    end.

End ElapsedTimeProvider.

(** ** The quest form ([src/app/quests/new/page.tsx]) *)

Module AddQuestPage.

Definition titleRequired : string := "Görev adı gerekli".
Definition invalidMinutes : string := "Geçerli bir dakika değeri girin (1+)".

(** [handleSubmit] on the form fields [title] and [rewardMinutes]: the
    resulting provider state and the error shown by the form (empty when
    the quest was added and the page navigated back). *)
Definition handleSubmit (uuid : string) (title rewardMinutes : string)
  (st : AppState) : AppState * string :=
  match trim title with
  | EmptyString => (st, titleRequired)
  | String _ _ as trimmed =>
      match parseInt rewardMinutes with
      | None => (st, invalidMinutes)
      | Some minutes =>
          if (minutes <=? 0)%Z then (st, invalidMinutes)
          else (TimerContext.addQuest uuid trimmed (ofZ minutes) st, EmptyString)
      end
  end.

End AddQuestPage.

(** ** Number and text primitives used by the pages *)

Module JSText.

(** The integer part of a number, rounding towards zero. *)
Definition truncate (x : number) : Z :=
  match (x ?= 0)%Qc with
  | Lt => Qceiling x
  | _ => Qfloor x
  end.

(** [a % b]: the remainder has the sign of [a]. *)
Definition remainder (a b : number) : number :=
  a - b * ofZ (truncate (a / b)).

(** [n.toString()] on an integer-valued number. *)
Definition toString (z : Z) : string := NilZero.string_of_int (Z.to_int z).

Fixpoint zeros (n : nat) : string :=
  match n with
  | O => EmptyString
  | S k => String "0" (zeros k)
  end.

(** [s.padStart(targetLength, "0")]. *)
Definition padStart0 (targetLength : nat) (s : string) : string :=
  (zeros (targetLength - String.length s) ++ s)%string.

End JSText.

Import JSText.

(** ** The clock face ([src/components/TimerDisplay.tsx]) *)

Module TimerDisplay.

Definition hours (totalSeconds : number) : Z :=
  Qfloor (totalSeconds / ofZ 3600)%Qc.

Definition minutes (totalSeconds : number) : Z :=
  Qfloor (remainder totalSeconds (ofZ 3600) / ofZ 60)%Qc.

Definition seconds (totalSeconds : number) : Z :=
  Qfloor (remainder totalSeconds (ofZ 60)).

(** [formatTime]: HH:MM:SS when there is at least one hour, MM:SS
    otherwise. *)
Definition formatTime (totalSeconds : number) : string :=
  if (0 <? hours totalSeconds)%Z
  then (padStart0 2 (toString (hours totalSeconds)) ++ ":"
        ++ padStart0 2 (toString (minutes totalSeconds)) ++ ":"
        ++ padStart0 2 (toString (seconds totalSeconds)))%string
  else (padStart0 2 (toString (minutes totalSeconds)) ++ ":"
        ++ padStart0 2 (toString (seconds totalSeconds)))%string.

End TimerDisplay.

(** ** The inventory page ([src/app/inventory/page.tsx]) *)

Module InventoryPage.

Definition toggleSelection (itemId : string) (prev : list string) : list string :=
  if includes prev itemId
  then filter (fun i => negb (String.eqb i itemId)) prev
  else prev ++ [itemId].

(** [selectAll]: the new selection. *)
Definition selectAll (inventory : list InventoryItem) (selectedIds : list string)
  : list string :=
  if Nat.eqb (List.length selectedIds) (List.length inventory)
  then []
  else map id inventory.

Definition selectedItems (inventory : list InventoryItem)
  (selectedIds : list string) : list InventoryItem :=
  filter (fun item => includes selectedIds (id item)) inventory.

(** The total announced by the confirmation dialog. *)
Definition totalSelectedMinutes (inventory : list InventoryItem)
  (selectedIds : list string) : number :=
  fold_left (fun sum item => sum + minutes item)
    (selectedItems inventory selectedIds) 0.

(** [handleUseClick]: whether the dialog is shown afterwards. *)
Definition handleUseClick (selectedIds : list string) (showUseModal : bool)
  : bool :=
  if Nat.eqb (List.length selectedIds) 0 then showUseModal else true.

(** [handleUseConfirm]: the provider state, the selection and the dialog
    flag afterwards. *)
Definition handleUseConfirm (selectedIds : list string) (st : AppState)
  : AppState * (list string * bool) :=
  (TimerContext.useInventoryItems selectedIds st, ([], false)).

End InventoryPage.

(** ** Loading the user document (the snapshot listener of
       [src/context/TimerContext.tsx]) *)

Module FirestoreSync.

(** A stored user document: any field may be absent. *)
Record Document : Type := mkDocument {
  doc_workElapsedSeconds : option number;
  doc_playBalanceSeconds : option number;
  doc_mode : option Mode;
  doc_lastTickTimestamp : option Z;
  doc_quests : option (list Quest);
  doc_inventory : option (list InventoryItem)
}.

(** [initialState]; [loadTime] is the [Date.now()] of the module load. *)
Definition initialState (loadTime : Z) : AppState :=
  mkAppState 0 0 NOTHING loadTime [] [].

Definition orElse {A : Type} (field : option A) (fallback : A) : A :=
  match field with
  | Some v => v
  | None => fallback
  end.

(** The state set by the listener when the document exists:
    [{...initialState, ...data,
      lastTickTimestamp: data.lastTickTimestamp || Date.now()}]. *)
Definition hydrate (loadTime now : Z) (data : Document) : AppState :=
  let init := initialState loadTime in
  {| workElapsedSeconds :=
       orElse (doc_workElapsedSeconds data) (workElapsedSeconds init);
     playBalanceSeconds :=
       orElse (doc_playBalanceSeconds data) (playBalanceSeconds init);
     mode := orElse (doc_mode data) (mode init);
     lastTickTimestamp :=
       match doc_lastTickTimestamp data with
       | Some t => if (t =? 0)%Z then now else t
       | None => now
       end;
     quests := orElse (doc_quests data) (quests init);
     inventory := orElse (doc_inventory data) (inventory init) |}.

(** The document written by [setDoc(userDocRef, state, { merge: true })]. *)
Definition stored (st : AppState) : Document :=
  {| doc_workElapsedSeconds := Some (workElapsedSeconds st);
     doc_playBalanceSeconds := Some (playBalanceSeconds st);
     doc_mode := Some (mode st);
     doc_lastTickTimestamp := Some (lastTickTimestamp st);
     doc_quests := Some (quests st);
     doc_inventory := Some (inventory st) |}.

End FirestoreSync.

(** ** Notions used to state the properties *)

Import TimerContext.

(** The snapshot [s] switched to [target] at time [now]. *)
Definition switched (now : Z) (target : Mode) (s : AppState) : AppState :=
  {| workElapsedSeconds := workElapsedSeconds s;
     playBalanceSeconds := playBalanceSeconds s;
     mode := target;
     lastTickTimestamp := now;
     quests := quests s;
     inventory := inventory s |}.

(** The minutes of the inventory items whose id occurs in [ids], every
    item of the inventory being counted once. *)
Fixpoint minutesOf (ids : list string) (inv : list InventoryItem) : number :=
  match inv with
  | [] => 0
  | item :: rest =>
      (if in_dec string_dec (id item) ids then minutes item else 0)
      + minutesOf ids rest
  end.

(** The operations that move the balance. *)
Inductive Op : Type :=
| Reconcile (now : Z)
| Tick (currentTime : Z)
| ApplyPenalty
| Redeem (ids : list string).

(** One operation applied to a snapshot. *)
Definition step (s : AppState) (op : Op) : AppState :=
  match op with
  | Reconcile now => reconcile s now
  | Tick currentTime => fst (tick currentTime s)
  | ApplyPenalty => applyPenalty s
  | Redeem ids => useInventoryItems ids s
  end.

(** A finite sequence of operations, applied from left to right. *)
Definition run (ops : list Op) (s : AppState) : AppState :=
  fold_left step ops s.

(** The balance is not negative and no inventory item carries negative
    minutes. *)
Definition solvent (s : AppState) : Prop :=
  0 <= playBalanceSeconds s
  /\ Forall (fun item => 0 <= minutes item) (inventory s).

(** Every action of the provider, with the values it reads from the
    environment (clock, fresh identifiers). *)
Inductive Action : Type :=
| ATick (currentTime : Z)
| ACatchUp (now : Z)
| ASetMode (now : Z) (newMode : Mode)
| AApplyPenalty
| AAddQuest (uuid title : string) (reward : number)
| ADeleteQuest (questId : string)
| AClaimQuest (uuid : string) (now : Z) (quest : Quest)
| ARedeem (ids : list string).

(** The snapshot after one action. *)
Definition act (s : AppState) (a : Action) : AppState :=
  match a with
  | ATick currentTime => fst (tick currentTime s)
  | ACatchUp now => reconcile s now
  | ASetMode now newMode => fst (setMode now newMode s)
  | AApplyPenalty => applyPenalty s
  | AAddQuest uuid title reward => addQuest uuid title reward s
  | ADeleteQuest questId => deleteQuest questId s
  | AClaimQuest uuid now quest => claimQuest uuid now quest s
  | ARedeem ids => useInventoryItems ids s
  end.

(** The snapshot after a sequence of actions, applied from left to right. *)
Definition perform (actions : list Action) (s : AppState) : AppState :=
  fold_left act actions s.

(** Actions that neither take from the balance nor spend inventory. *)
Definition keepsBalance (a : Action) : bool :=
  match a with
  | AApplyPenalty | ARedeem _ => false
  | _ => true
  end.

(** While the mode is PLAY there is balance left. *)
Definition playing (s : AppState) : Prop :=
  mode s = PLAY -> 0 < playBalanceSeconds s.

(** A string made of white space only. *)
Fixpoint blank (s : string) : bool :=
  match s with
  | EmptyString => true
  | String c rest => (isWhiteSpace c && blank rest)%bool
  end.

(** The interval firing at each of [times], in order. *)
Definition tickAll (times : list Z) (s : AppState) : AppState :=
  fold_left (fun st currentTime => fst (tick currentTime st)) times s.

(** The minutes of a whole inventory. *)
Definition inventoryMinutes (inv : list InventoryItem) : number :=
  totalMinutes inv.

(** What a snapshot is worth in seconds of play: the balance plus the
    unredeemed rewards. *)
Definition playWorth (s : AppState) : number :=
  playBalanceSeconds s + inventoryMinutes (inventory s) * ofZ 60.

(** ** Snapshots of the scenarios *)

Definition scenarioA : AppState := mkAppState 0 0 WORK 0 [] [].

Definition scenarioB : AppState := mkAppState 0 (ofZ 3) PLAY 0 [] [].

Definition scenarioC : AppState := mkAppState (ofZ 100) (ofZ 40) WORK 0 [] [].

Definition scenarioE : AppState :=
  mkAppState 0 0 NOTHING 0 []
    [mkItem "a" "q1" "read" (ofZ 10) 1; mkItem "b" "q2" "walk" (ofZ 15) 2].

Definition scenarioE_ids : list string := ["a"%string; "b"%string].

Definition emptyBalance : AppState := mkAppState (ofZ 40) 0 NOTHING 1000 [] [].

Definition clockSkew : AppState := mkAppState (ofZ 7) (ofZ 2) WORK 1000 [] [].

Definition idle : AppState := mkAppState (ofZ 10) (ofZ 5) NOTHING 0 [] [].

Definition working : AppState := mkAppState (ofZ 10) (ofZ 5) WORK 1000 [] [].

Definition debt : AppState :=
  mkAppState 0 0 NOTHING 0 [] [mkItem "a" "q1" "owed" (ofZ (-1)) 1].

Definition readQuest : Quest := mkQuest "q7" "read" (ofZ 20).

Definition walkQuest : Quest := mkQuest "q8" "walk" (ofZ 15).

Definition questBoard : AppState :=
  mkAppState (ofZ 10) (ofZ 5) NOTHING 0 [readQuest; walkQuest]
    [mkItem "a" "q7" "read" (ofZ 20) 1].

Definition lateInPlay : AppState := mkAppState (ofZ 900) (ofZ 100) PLAY 0 [] [].

Definition eveningOfPlay : list Action :=
  [ASetMode 1000 PLAY; ATick 2000; ATick 3000; ACatchUp 9000;
   AClaimQuest "c" 9500 readQuest; ASetMode 9600 PLAY; ATick 10000].

Definition threeTicks : list Z := [1000; 2000; 3000]%Z.

Definition busyDay : list Op :=
  [Tick 1000; Reconcile 9000; Redeem scenarioE_ids; ApplyPenalty;
   Reconcile 20000; Tick 21000].

(** ** Proof automation for numbers *)

(** Turns a goal on canonical rationals into one on plain rationals. *)
Ltac qc2q :=
  unfold Qcle, Qclt, Qcminus, Qcplus, Qcmult, Qcopp, ofZ,
    PLAY_GAIN_RATE, PENALTY_SECONDS in *;
  repeat match goal with
  | |- context [this (Q2Qc ?q)] =>
      change (this (Q2Qc q)) with (Qred q); rewrite (Qred_correct q)
  | H : context [this (Q2Qc ?q)] |- _ =>
      change (this (Q2Qc q)) with (Qred q) in H; rewrite (Qred_correct q) in H
  end.

(** Decides a closed equation between numbers by evaluation. *)
Ltac qc_compute := apply Qc_is_canon; vm_compute; reflexivity.

(** ** Facts about numbers *)

Section NumberFacts.

Lemma this_Q2Qc (q : Q) : (this (Q2Qc q) == q)%Q.
Proof. simpl. apply Qred_correct. Qed.

Lemma inject_Z_nonneg (z : Z) : (0 <= z)%Z -> (0 <= inject_Z z)%Q.
Proof.
  intros Hz. change 0%Q with (inject_Z 0). rewrite <- Zle_Qle. exact Hz.
Qed.

Lemma inject_Z_half_even (z : Z) :
  Z.even z = true -> (inject_Z (z / 2) == inject_Z z * (1 # 2))%Q.
Proof.
  intros Hev. apply Z.even_spec in Hev. destruct Hev as [k ->].
  rewrite Z.mul_comm, Z.div_mul by lia.
  rewrite inject_Z_mult. unfold inject_Z at 3. lra.
Qed.

Lemma ofZ_plus (a b : Z) : ofZ (a + b) = ofZ a + ofZ b.
Proof. apply Qc_is_canon. qc2q. rewrite inject_Z_plus. reflexivity. Qed.

Lemma ofZ_nonneg (z : Z) : (0 <= z)%Z -> 0 <= ofZ z.
Proof. intros Hz. qc2q. apply inject_Z_nonneg, Hz. Qed.

Lemma Qcplus_nonneg (x y : number) : 0 <= x -> 0 <= y -> 0 <= x + y.
Proof. intros Hx Hy. qc2q. lra. Qed.

Lemma Qcmult_nonneg (x y : number) : 0 <= x -> 0 <= y -> 0 <= x * y.
Proof.
  intros Hx Hy. qc2q. apply Qmult_le_0_compat; assumption.
Qed.

(** [Math.floor(n * 0.5)] on an integer [n] is the integer quotient by 2. *)
Lemma Math_floor_half (e : Z) :
  Math_floor (ofZ e * PLAY_GAIN_RATE) = ofZ (e / 2).
Proof.
  unfold Math_floor. f_equal.
  transitivity (Qfloor (inject_Z e * (1 # 2))).
  - apply Qfloor_comp. qc2q. reflexivity.
  - unfold inject_Z, Qmult, Qfloor. simpl. rewrite Z.mul_1_r. reflexivity.
Qed.

Lemma Math_floor_half_even (e : Z) :
  Z.even e = true -> Math_floor (ofZ e * PLAY_GAIN_RATE) = ofZ e * PLAY_GAIN_RATE.
Proof.
  intros Hev. rewrite Math_floor_half. apply Qc_is_canon. qc2q.
  apply inject_Z_half_even, Hev.
Qed.

Lemma playPenalty_value : Math_floor (PENALTY_SECONDS * PLAY_GAIN_RATE) = ofZ 150.
Proof. qc_compute. Qed.

(** [Math.max] is the larger of its arguments. *)
Lemma Math_max_spec (a b : number) :
  (a < b /\ Math_max a b = b) \/ (b <= a /\ Math_max a b = a).
Proof.
  unfold Math_max. destruct (a ?= b) eqn:Hc.
  - right. split; [|reflexivity]. apply Qceq_alt in Hc. subst. apply Qcle_refl.
  - left. split; [|reflexivity]. apply Qclt_alt, Hc.
  - right. split; [|reflexivity]. apply Qclt_le_weak, Qcgt_alt, Hc.
Qed.

Lemma Math_max_l (a b : number) : a <= Math_max a b.
Proof.
  destruct (Math_max_spec a b) as [[Hlt ->] | [_ ->]].
  - apply Qclt_le_weak, Hlt.
  - apply Qcle_refl.
Qed.

Lemma Math_max_floor_low (x : number) : x <= 0 -> Math_max 0 x = 0.
Proof.
  intros Hx. destruct (Math_max_spec 0 x) as [[Hlt _] | [_ Heq]].
  - exfalso. exact (Qclt_not_le _ _ Hlt Hx).
  - exact Heq.
Qed.

Lemma Math_max_floor_high (x : number) : 0 <= x -> Math_max 0 x = x.
Proof.
  intros Hx. destruct (Math_max_spec 0 x) as [[_ Heq] | [Hle Heq]].
  - exact Heq.
  - rewrite Heq. apply Qcle_antisym; assumption.
Qed.

Lemma strict_eq_true (x y : number) : strict_eq x y = true <-> x = y.
Proof.
  unfold strict_eq. destruct (Qc_eq_dec x y); split; congruence.
Qed.

Lemma strict_eq_false (x y : number) : strict_eq x y = false <-> x <> y.
Proof.
  unfold strict_eq. destruct (Qc_eq_dec x y); split; congruence.
Qed.

Lemma lessEq_true (x y : number) : lessEq x y = true <-> x <= y.
Proof.
  unfold lessEq. rewrite Qcle_alt. destruct (x ?= y); split; congruence.
Qed.

Lemma lessEq_false (x y : number) : lessEq x y = false <-> y < x.
Proof.
  unfold lessEq. pose proof (Qcgt_alt x y) as Hgt. unfold Qclt.
  destruct (x ?= y); split; intros H; try congruence;
    try (apply Hgt; reflexivity); apply Hgt in H; congruence.
Qed.

End NumberFacts.

(** ** Mode controller *)

(** C6. [setMode] with target PLAY on a snapshot whose balance is not
    positive is rejected and returns the very same snapshot; every other
    request sets the mode to the target and the tick timestamp to the
    current time, and leaves the work time, the balance, the quests and
    the inventory as they were. *)
Theorem setMode_guard (now : Z) (target : Mode) (s : AppState) :
  (target = PLAY /\ playBalanceSeconds s <= 0 ->
     setMode now target s = (s, true))
  /\ (~ (target = PLAY /\ playBalanceSeconds s <= 0) ->
     setMode now target s = (switched now target s, false)
     /\ mode (fst (setMode now target s)) = target
     /\ lastTickTimestamp (fst (setMode now target s)) = now
     /\ workElapsedSeconds (fst (setMode now target s)) = workElapsedSeconds s
     /\ playBalanceSeconds (fst (setMode now target s)) = playBalanceSeconds s
     /\ quests (fst (setMode now target s)) = quests s
     /\ inventory (fst (setMode now target s)) = inventory s).
Proof.
  split.
  - intros [-> Hle]. unfold setMode.
    apply lessEq_true in Hle. rewrite Hle. reflexivity.
  - intros Hok.
    assert (Hrun : setMode now target s = (switched now target s, false)).
    { unfold setMode, switched. destruct target; try reflexivity.
      destruct (lessEq (playBalanceSeconds s) 0) eqn:Hle; [|reflexivity].
      exfalso. apply Hok. split; [reflexivity|]. apply lessEq_true, Hle. }
    rewrite Hrun. simpl. repeat split; reflexivity.
Qed.

Lemma setMode_guard_witness :
  setMode 5000 PLAY emptyBalance = (emptyBalance, true)
  /\ mode (fst (setMode 5000 WORK emptyBalance)) = WORK.
Proof.
  split.
  - apply (proj1 (setMode_guard 5000 PLAY emptyBalance)).
    split; [reflexivity | vm_compute; discriminate].
  - apply (proj2 (setMode_guard 5000 WORK emptyBalance)).
    intros [Hplay _]. discriminate Hplay.
Defined.

(** Scenario D: a request for PLAY on balance 0 is rejected and the
    snapshot is returned as it was. *)
Lemma setMode_scenario_D (now : Z) (w : number) (m : Mode) (t : Z)
  (q : list Quest) (i : list InventoryItem) :
  setMode now PLAY (mkAppState w 0 m t q i) = (mkAppState w 0 m t q i, true).
Proof. reflexivity. Qed.

(** C7. [applyPenalty] takes 300 seconds off the work time and 150 seconds
    off the play balance, each floored at zero on its own, and changes
    nothing else; from work 100 and balance 40 both end at 0. *)
Theorem applyPenalty_floors (s : AppState) :
  workElapsedSeconds (applyPenalty s)
    = Math_max 0 (workElapsedSeconds s - ofZ 300)
  /\ playBalanceSeconds (applyPenalty s)
    = Math_max 0 (playBalanceSeconds s - ofZ 150)
  /\ (workElapsedSeconds s <= ofZ 300 -> workElapsedSeconds (applyPenalty s) = 0)
  /\ (ofZ 300 <= workElapsedSeconds s ->
      workElapsedSeconds (applyPenalty s) = workElapsedSeconds s - ofZ 300)
  /\ (playBalanceSeconds s <= ofZ 150 -> playBalanceSeconds (applyPenalty s) = 0)
  /\ (ofZ 150 <= playBalanceSeconds s ->
      playBalanceSeconds (applyPenalty s) = playBalanceSeconds s - ofZ 150)
  /\ mode (applyPenalty s) = mode s
  /\ lastTickTimestamp (applyPenalty s) = lastTickTimestamp s
  /\ quests (applyPenalty s) = quests s
  /\ inventory (applyPenalty s) = inventory s
  /\ (forall m t q i,
      applyPenalty (mkAppState (ofZ 100) (ofZ 40) m t q i) = mkAppState 0 0 m t q i).
Proof.
  unfold applyPenalty. cbn [workElapsedSeconds playBalanceSeconds mode
    lastTickTimestamp quests inventory].
  rewrite playPenalty_value. change PENALTY_SECONDS with (ofZ 300).
  repeat split.
  - intros Hw. apply Math_max_floor_low. qc2q. lra.
  - intros Hw. apply Math_max_floor_high. qc2q. lra.
  - intros Hp. apply Math_max_floor_low. qc2q. lra.
  - intros Hp. apply Math_max_floor_high. qc2q. lra.
Qed.

Lemma applyPenalty_floors_witness :
  workElapsedSeconds (applyPenalty scenarioC) = 0
  /\ playBalanceSeconds (applyPenalty scenarioC) = 0.
Proof.
  destruct (applyPenalty_floors scenarioC) as (_ & _ & Hw & _ & Hp & _).
  split; [apply Hw | apply Hp]; vm_compute; discriminate.
Defined.

(** ** Reward ledger: redemption *)

Section Redemption.

Lemma includes_In (ids : list string) (i : string) :
  includes ids i = true <-> In i ids.
Proof.
  unfold includes. rewrite existsb_exists. split.
  - intros (x & Hin & Heq). apply String.eqb_eq in Heq. subst. exact Hin.
  - intros Hin. exists i. split; [exact Hin | apply String.eqb_refl].
Qed.

Lemma includes_iff (ids ids' : list string) (i : string) :
  (In i ids <-> In i ids') -> includes ids i = includes ids' i.
Proof.
  intros Hext.
  destruct (includes ids i) eqn:H1, (includes ids' i) eqn:H2; try reflexivity.
  - apply includes_In, Hext, includes_In in H1. congruence.
  - apply includes_In, Hext, includes_In in H2. congruence.
Qed.

Lemma includes_nil (i : string) : includes [] i = false.
Proof. reflexivity. Qed.

Lemma fold_minutes_shift (l : list InventoryItem) (a : number) :
  fold_left (fun sum item => sum + minutes item) l a
  = a + fold_left (fun sum item => sum + minutes item) l 0.
Proof.
  revert a. induction l as [|item rest IH]; intros a; simpl.
  - now rewrite Qcplus_0_r.
  - rewrite IH. rewrite (IH (0 + minutes item)). ring.
Qed.

Lemma totalMinutes_cons (item : InventoryItem) (rest : list InventoryItem) :
  totalMinutes (item :: rest) = minutes item + totalMinutes rest.
Proof.
  unfold totalMinutes. simpl. rewrite fold_minutes_shift. ring.
Qed.

(** The reduce over the selected items is the sum named by the ledger. *)
Lemma totalMinutes_selected (ids : list string) (inv : list InventoryItem) :
  totalMinutes (filter (fun item => includes ids (id item)) inv)
  = minutesOf ids inv.
Proof.
  induction inv as [|item rest IH]; simpl.
  - reflexivity.
  - destruct (includes ids (id item)) eqn:Hinc;
      destruct (in_dec string_dec (id item) ids) as [Hin | Hout].
    + rewrite totalMinutes_cons, IH. reflexivity.
    + apply includes_In in Hinc. contradiction.
    + apply includes_In in Hin. congruence.
    + rewrite IH. ring.
Qed.

Lemma minutesOf_ext (ids ids' : list string) (inv : list InventoryItem) :
  (forall item, In item inv -> (In (id item) ids <-> In (id item) ids')) ->
  minutesOf ids inv = minutesOf ids' inv.
Proof.
  induction inv as [|item rest IH]; intros Hext; simpl; [reflexivity|].
  rewrite IH by (intros it Hit; apply Hext; right; exact Hit).
  pose proof (Hext item (or_introl eq_refl)) as Hitem.
  destruct (in_dec string_dec (id item) ids) as [H1 | H1];
    destruct (in_dec string_dec (id item) ids') as [H2 | H2];
    try reflexivity; exfalso.
  - apply H2, Hitem, H1.
  - apply H1, Hitem, H2.
Qed.

Lemma minutesOf_nonneg (ids : list string) (inv : list InventoryItem) :
  Forall (fun item => 0 <= minutes item) inv -> 0 <= minutesOf ids inv.
Proof.
  induction 1 as [|item rest Hitem _ IH]; simpl.
  - apply Qcle_refl.
  - apply Qcplus_nonneg; [|exact IH].
    destruct (in_dec string_dec (id item) ids); [exact Hitem | apply Qcle_refl].
Qed.

Lemma useInventoryItems_balance (ids : list string) (s : AppState) :
  playBalanceSeconds (useInventoryItems ids s)
  = playBalanceSeconds s + minutesOf ids (inventory s) * ofZ 60.
Proof.
  unfold useInventoryItems. simpl. rewrite totalMinutes_selected. reflexivity.
Qed.

(** Redemption only looks at which ids of inventory items occur in the
    array. *)
Lemma useInventoryItems_ext (ids ids' : list string) (s : AppState) :
  (forall item, In item (inventory s) ->
     (In (id item) ids <-> In (id item) ids')) ->
  useInventoryItems ids s = useInventoryItems ids' s.
Proof.
  intros Hext. unfold useInventoryItems.
  rewrite !totalMinutes_selected, (minutesOf_ext ids ids' _ Hext).
  f_equal. apply filter_ext_in. intros item Hitem.
  now rewrite (includes_iff ids ids' _ (Hext item Hitem)).
Qed.

Lemma filter_all {A : Type} (l : list A) : filter (fun _ => true) l = l.
Proof.
  induction l as [|x l IH]; simpl; [reflexivity | now rewrite IH].
Qed.

Lemma filter_none {A : Type} (l : list A) : filter (fun _ => false) l = [].
Proof.
  induction l as [|x l IH]; simpl; [reflexivity | exact IH].
Qed.

Lemma useInventoryItems_nil (s : AppState) : useInventoryItems [] s = s.
Proof.
  unfold useInventoryItems. simpl. destruct s as [w p m t q inv]. simpl.
  rewrite filter_all, filter_none. f_equal.
  unfold totalMinutes. simpl. ring.
Qed.

End Redemption.

(** C8. Redemption adds to the balance sixty times the minutes of the
    inventory items whose id is listed, removes exactly those items, takes
    no account of listed ids that no inventory item carries, and changes
    nothing when no id is listed; redeeming items of 10 and 15 minutes from
    balance 0 gives 1500 seconds and an inventory without them. *)
Theorem useInventoryItems_redeems (ids : list string) (s : AppState) :
  playBalanceSeconds (useInventoryItems ids s)
    = playBalanceSeconds s + minutesOf ids (inventory s) * ofZ 60
  /\ (forall item,
       In item (inventory (useInventoryItems ids s))
       <-> In item (inventory s) /\ ~ In (id item) ids)
  /\ inventory (useInventoryItems ids s)
    = filter (fun item => negb (includes ids (id item))) (inventory s)
  /\ (forall absent,
       (forall item, In item (inventory s) -> ~ In (id item) absent) ->
       useInventoryItems (ids ++ absent) s = useInventoryItems ids s)
  /\ useInventoryItems [] s = s
  /\ (forall ia ib qa qb ta tb ca cb w m t q,
       let itemA := mkItem ia qa ta (ofZ 10) ca in
       let itemB := mkItem ib qb tb (ofZ 15) cb in
       let s' :=
         useInventoryItems [ia; ib] (mkAppState w 0 m t q [itemA; itemB]) in
       playBalanceSeconds s' = ofZ 1500 /\ inventory s' = []).
Proof.
  split; [apply useInventoryItems_balance|].
  split.
  { intros item. unfold useInventoryItems. simpl. rewrite filter_In.
    rewrite negb_true_iff. split; intros [Hin Hout]; split; try exact Hin.
    - intros Hids. apply includes_In in Hids. congruence.
    - destruct (includes ids (id item)) eqn:Hinc; [|reflexivity].
      apply includes_In in Hinc. contradiction. }
  split; [reflexivity|].
  split.
  { intros absent Habsent. apply useInventoryItems_ext.
    intros item Hitem. rewrite in_app_iff. split; [|now left].
    intros [Hids | Hno]; [exact Hids|]. exfalso. exact (Habsent item Hitem Hno). }
  split; [apply useInventoryItems_nil|].
  intros ia ib qa qb ta tb ca cb w m t q. unfold useInventoryItems, includes.
  simpl. rewrite !String.eqb_refl, !orb_true_r. simpl.
  split; [qc_compute | reflexivity].
Qed.

Lemma useInventoryItems_redeems_witness :
  useInventoryItems (scenarioE_ids ++ ["zz"%string]) scenarioE
  = useInventoryItems scenarioE_ids scenarioE.
Proof.
  destruct (useInventoryItems_redeems scenarioE_ids scenarioE)
    as (_ & _ & _ & Habsent & _).
  apply Habsent. intros item Hitem Hzz.
  destruct Hitem as [<- | [<- | []]]; destruct Hzz as [Hzz | []];
    discriminate Hzz.
Defined.


(** ** Clock reconciliation *)

Section CatchUp.

Lemma catchUp_skips (b : bool) (now : Z) (s : AppState) :
  (elapsedSeconds now s <= 1)%Z -> catchUp b now s = (s, false).
Proof.
  intros Hle. unfold catchUp.
  replace (1 <? elapsedSeconds now s)%Z with false; [reflexivity|].
  symmetry. apply Z.ltb_ge, Hle.
Qed.

Lemma catchUp_fires (now : Z) (s : AppState) :
  (1 < elapsedSeconds now s)%Z ->
  catchUp false now s = catchUpUpdate (elapsedSeconds now s) now s.
Proof.
  intros Hlt. unfold catchUp.
  replace (1 <? elapsedSeconds now s)%Z with true; [reflexivity|].
  symmetry. apply Z.ltb_lt, Hlt.
Qed.

Lemma catchUpUpdate_timestamp (e now : Z) (s : AppState) :
  lastTickTimestamp (fst (catchUpUpdate e now s)) = now.
Proof. unfold catchUpUpdate. destruct (mode s); reflexivity. Qed.

Lemma elapsedSeconds_now (now : Z) (s : AppState) :
  lastTickTimestamp s = now -> elapsedSeconds now s = 0%Z.
Proof.
  intros Heq. unfold elapsedSeconds. rewrite Heq, Z.sub_diag. reflexivity.
Qed.

Lemma reconcile_skips (s : AppState) (t : Z) :
  (elapsedSeconds t s <= 1)%Z -> reconcile s t = s.
Proof.
  intros Hle. unfold reconcile. now rewrite catchUp_skips.
Qed.

Lemma reconcile_fires (s : AppState) (t : Z) :
  (1 < elapsedSeconds t s)%Z ->
  reconcile s t = fst (catchUpUpdate (elapsedSeconds t s) t s).
Proof.
  intros Hlt. unfold reconcile. now rewrite catchUp_fires.
Qed.

(** Catching up in WORK mode credits the integer half of the elapsed
    seconds. *)
Lemma catchUp_work_balance (s : AppState) (t : Z) :
  mode s = WORK -> (1 < elapsedSeconds t s)%Z ->
  playBalanceSeconds (reconcile s t)
  = playBalanceSeconds s + ofZ (elapsedSeconds t s / 2).
Proof.
  intros Hmode Hlt. rewrite reconcile_fires by exact Hlt.
  unfold catchUpUpdate. rewrite Hmode. simpl.
  now rewrite Math_floor_half.
Qed.

End CatchUp.

(** C4. Reconciling at a time that is not a whole second past the last tick
    returns the snapshot itself, and reconciling twice at the same time is
    the same as reconciling once. *)
Theorem reconcile_idempotent (s : AppState) (t : Z) :
  ((elapsedSeconds t s <= 0)%Z ->
     reconcile s t = s /\ reconcile_ended s t = false)
  /\ reconcile (reconcile s t) t = reconcile s t.
Proof.
  split.
  - intros Hle. unfold reconcile, reconcile_ended.
    rewrite catchUp_skips by lia. split; reflexivity.
  - destruct (Z_lt_le_dec 1 (elapsedSeconds t s)) as [Hlt | Hle].
    + apply reconcile_skips.
      rewrite elapsedSeconds_now; [lia|].
      rewrite reconcile_fires by exact Hlt. apply catchUpUpdate_timestamp.
    + rewrite (reconcile_skips s t Hle). apply reconcile_skips, Hle.
Qed.

Lemma reconcile_idempotent_witness :
  reconcile clockSkew 500 = clockSkew /\ reconcile_ended clockSkew 500 = false.
Proof.
  apply (proj1 (reconcile_idempotent clockSkew 500)).
  vm_compute. discriminate.
Defined.

(** *** Decay in PLAY mode *)

(** One second after the last tick the catch-up does not fire: the balance
    of 3 stays 3 although a whole second has elapsed. *)
Lemma reconcile_play_one_second_unchanged :
  mode scenarioB = PLAY
  /\ (0 < elapsedSeconds 1000 scenarioB)%Z
  /\ playBalanceSeconds (reconcile scenarioB 1000)
     <> Math_max 0 (playBalanceSeconds scenarioB
                    - ofZ (elapsedSeconds 1000 scenarioB))
  /\ reconcile scenarioB 1000 = scenarioB.
Proof.
  split; [reflexivity|]. split; [reflexivity|]. split; [|reflexivity].
  intros Heq. apply (f_equal this) in Heq. vm_compute in Heq. discriminate Heq.
Qed.

(** C3, amended. In PLAY mode, when more than one whole second has elapsed,
    catch-up reconciliation sets the balance to max(0, balance - elapsed);
    when that is exactly 0 the mode becomes NOTHING and the ended signal is
    emitted in the same update, otherwise the mode stays PLAY.  From balance
    3, reconciling 5000 ms later gives balance 0, mode NOTHING and the
    signal. *)
Theorem reconcile_play_decay :
  (forall (s : AppState) (t : Z),
     mode s = PLAY -> (1 < elapsedSeconds t s)%Z ->
     playBalanceSeconds (reconcile s t)
       = Math_max 0 (playBalanceSeconds s - ofZ (elapsedSeconds t s))
     /\ (playBalanceSeconds s <= ofZ (elapsedSeconds t s) ->
         playBalanceSeconds (reconcile s t) = 0)
     /\ (ofZ (elapsedSeconds t s) <= playBalanceSeconds s ->
         playBalanceSeconds (reconcile s t)
         = playBalanceSeconds s - ofZ (elapsedSeconds t s))
     /\ (playBalanceSeconds (reconcile s t) = 0 ->
         mode (reconcile s t) = NOTHING /\ reconcile_ended s t = true)
     /\ (playBalanceSeconds (reconcile s t) <> 0 ->
         mode (reconcile s t) = PLAY /\ reconcile_ended s t = false)
     /\ lastTickTimestamp (reconcile s t) = t
     /\ workElapsedSeconds (reconcile s t) = workElapsedSeconds s
     /\ quests (reconcile s t) = quests s
     /\ inventory (reconcile s t) = inventory s)
  /\ (forall (w : number) (T : Z) (q : list Quest) (i : list InventoryItem),
     reconcile (mkAppState w (ofZ 3) PLAY T q i) (T + 5000)
       = mkAppState w 0 NOTHING (T + 5000) q i
     /\ reconcile_ended (mkAppState w (ofZ 3) PLAY T q i) (T + 5000) = true).
Proof.
  split.
  - intros s t Hmode Hlt. unfold reconcile, reconcile_ended.
    rewrite catchUp_fires by exact Hlt.
    unfold catchUpUpdate. rewrite Hmode. simpl.
    split; [reflexivity|].
    split; [intros Hlow; apply Math_max_floor_low; qc2q; lra|].
    split; [intros Hhigh; apply Math_max_floor_high; qc2q; lra|].
    split; [intros Hzero | split; [intros Hpos | repeat split]].
    + apply strict_eq_true in Hzero. rewrite Hzero. split; reflexivity.
    + apply strict_eq_false in Hpos. rewrite Hpos. split; reflexivity.
  - intros w T q i. unfold reconcile, reconcile_ended, catchUp, elapsedSeconds.
    simpl. replace (T + 5000 - T)%Z with 5000%Z by lia.
    split; reflexivity.
Qed.

Lemma reconcile_play_decay_witness :
  (1 < elapsedSeconds 5000 scenarioB)%Z
  /\ playBalanceSeconds (reconcile scenarioB 5000)
     = Math_max 0 (playBalanceSeconds scenarioB
                   - ofZ (elapsedSeconds 5000 scenarioB)).
Proof.
  split; [reflexivity|].
  apply (proj1 reconcile_play_decay scenarioB 5000%Z); reflexivity.
Defined.

(** *** Accrual in WORK mode *)

(** One second after the last tick the catch-up does not fire, and three
    seconds after it the balance has grown by 1, not by 1.5. *)
Lemma reconcile_work_not_exact :
  mode scenarioA = WORK
  /\ (0 < elapsedSeconds 1000 scenarioA)%Z
  /\ workElapsedSeconds (reconcile scenarioA 1000)
     <> workElapsedSeconds scenarioA + ofZ (elapsedSeconds 1000 scenarioA)
  /\ (0 < elapsedSeconds 3000 scenarioA)%Z
  /\ playBalanceSeconds (reconcile scenarioA 3000)
     <> playBalanceSeconds scenarioA
        + ofZ (elapsedSeconds 3000 scenarioA) * PLAY_GAIN_RATE
  /\ playBalanceSeconds (reconcile scenarioA 3000) = ofZ 1.
Proof.
  split; [reflexivity|]. split; [reflexivity|].
  split.
  { intros Heq. apply (f_equal this) in Heq. vm_compute in Heq. discriminate Heq. }
  split; [reflexivity|].
  split.
  { intros Heq. apply (f_equal this) in Heq. vm_compute in Heq. discriminate Heq. }
  qc_compute.
Qed.

(** C2, amended. In WORK mode, when more than one whole second has elapsed,
    catch-up reconciliation adds the elapsed seconds to the work time, sets
    the tick timestamp to the current time and leaves the mode WORK; when
    the number of elapsed seconds is even it adds exactly half of it to the
    balance.  From work 0 and balance 0, reconciling 10000 ms later gives
    work 10 and balance 5. *)
Theorem reconcile_work_accrual :
  (forall (s : AppState) (t : Z),
     mode s = WORK -> (1 < elapsedSeconds t s)%Z ->
     workElapsedSeconds (reconcile s t)
       = workElapsedSeconds s + ofZ (elapsedSeconds t s)
     /\ (Z.even (elapsedSeconds t s) = true ->
         playBalanceSeconds (reconcile s t)
         = playBalanceSeconds s + ofZ (elapsedSeconds t s) * PLAY_GAIN_RATE)
     /\ lastTickTimestamp (reconcile s t) = t
     /\ mode (reconcile s t) = WORK
     /\ reconcile_ended s t = false
     /\ quests (reconcile s t) = quests s
     /\ inventory (reconcile s t) = inventory s)
  /\ (forall (T : Z) (q : list Quest) (i : list InventoryItem),
     reconcile (mkAppState 0 0 WORK T q i) (T + 10000)
       = mkAppState (ofZ 10) (ofZ 5) WORK (T + 10000) q i).
Proof.
  split.
  - intros s t Hmode Hlt. unfold reconcile, reconcile_ended.
    rewrite catchUp_fires by exact Hlt.
    unfold catchUpUpdate. rewrite Hmode. simpl.
    split; [reflexivity|].
    split; [|repeat split].
    intros Hev. now rewrite Math_floor_half_even.
  - intros T q i. unfold reconcile, catchUp, elapsedSeconds.
    simpl. replace (T + 10000 - T)%Z with 10000%Z by lia.
    simpl. f_equal; qc_compute.
Qed.

Lemma reconcile_work_accrual_witness :
  (1 < elapsedSeconds 10000 scenarioA)%Z
  /\ workElapsedSeconds (reconcile scenarioA 10000)
     = workElapsedSeconds scenarioA + ofZ (elapsedSeconds 10000 scenarioA)
  /\ playBalanceSeconds (reconcile scenarioA 10000)
     = playBalanceSeconds scenarioA
       + ofZ (elapsedSeconds 10000 scenarioA) * PLAY_GAIN_RATE.
Proof.
  split; [reflexivity|].
  destruct (proj1 reconcile_work_accrual scenarioA 10000%Z)
    as (Hwork & Hplay & _); try reflexivity.
  split; [exact Hwork | apply Hplay; reflexivity].
Defined.

(** The sibling routine [calculateElapsedTime] fires from the first whole
    second on and credits the exact half of the elapsed seconds. *)
Lemma calculateElapsedTime_work_exact (s : AppState) (t : Z) :
  mode s = WORK -> (0 < (t - lastTickTimestamp s) / 1000)%Z ->
  let e := ((t - lastTickTimestamp s) / 1000)%Z in
  let s' := fst (ElapsedTimeProvider.calculateElapsedTime t s) in
  workElapsedSeconds s' = workElapsedSeconds s + ofZ e
  /\ playBalanceSeconds s' = playBalanceSeconds s + ofZ e * PLAY_GAIN_RATE
  /\ lastTickTimestamp s' = t
  /\ mode s' = WORK.
Proof.
  intros Hmode Hpos. unfold ElapsedTimeProvider.calculateElapsedTime.
  replace ((t - lastTickTimestamp s) / 1000 <=? 0)%Z with false
    by (symmetry; apply Z.leb_gt, Hpos).
  rewrite Hmode. simpl. repeat split.
Qed.

(** The per-second tick in WORK mode credits the exact half second. *)
Lemma tick_work_exact (now : Z) (s : AppState) :
  mode s = WORK ->
  playBalanceSeconds (fst (tick now s)) = playBalanceSeconds s + PLAY_GAIN_RATE
  /\ workElapsedSeconds (fst (tick now s)) = workElapsedSeconds s + 1.
Proof.
  intros Hmode. unfold tick. rewrite Hmode. simpl. split; reflexivity.
Qed.

(** *** Reconciling in two steps *)

Section Additivity.

Lemma Math_max_decay (p : number) (e1 e2 : Z) :
  (0 <= e1)%Z -> (0 <= e2)%Z ->
  Math_max 0 (Math_max 0 (p - ofZ e1) - ofZ e2)
  = Math_max 0 (p - ofZ (e1 + e2)).
Proof.
  intros H1 H2.
  pose proof (inject_Z_nonneg e1 H1) as Hq1.
  pose proof (inject_Z_nonneg e2 H2) as Hq2.
  assert (Hsum : p - ofZ e1 - ofZ e2 = p - ofZ (e1 + e2))
    by (rewrite ofZ_plus; ring).
  destruct (Qclt_le_dec (p - ofZ e1) 0) as [Hneg | Hpos].
  - rewrite (Math_max_floor_low (p - ofZ e1)) by (apply Qclt_le_weak, Hneg).
    rewrite !Math_max_floor_low; [reflexivity | |].
    + rewrite <- Hsum. qc2q. lra.
    + qc2q. lra.
  - rewrite (Math_max_floor_high (p - ofZ e1)) by exact Hpos.
    now rewrite Hsum.
Qed.

Lemma half_sum_even (a b : Z) :
  Z.even a = true -> ((a + b) / 2 = a / 2 + b / 2)%Z.
Proof.
  intros Hev. apply Z.even_spec in Hev. destruct Hev as [k ->].
  rewrite (Z.mul_comm 2 k), Z.div_add_l, Z.div_mul by lia. reflexivity.
Qed.

Lemma whole_seconds_split (t0 t1 t2 : Z) :
  ((t1 - t0) mod 1000 = 0)%Z ->
  ((t2 - t0) / 1000 = (t1 - t0) / 1000 + (t2 - t1) / 1000)%Z.
Proof.
  intros Hwhole.
  pose proof (Z.div_mod (t1 - t0) 1000 ltac:(lia)) as Hdm.
  rewrite Hwhole, Z.add_0_r in Hdm.
  replace (t2 - t0)%Z with ((t1 - t0) / 1000 * 1000 + (t2 - t1))%Z by lia.
  rewrite Z.div_add_l by lia. reflexivity.
Qed.

Lemma seconds_without_carry (a b : Z) :
  (a mod 1000 + b mod 1000 < 1000)%Z ->
  ((a + b) / 1000 = a / 1000 + b / 1000)%Z.
Proof.
  intros Hcarry. Z.div_mod_to_equations. lia.
Qed.

Lemma half_sum_not_both_odd (a b : Z) :
  Z.odd a = false \/ Z.odd b = false ->
  ((a + b) / 2 = a / 2 + b / 2)%Z.
Proof.
  intros [Ha | Hb].
  - apply half_sum_even. now rewrite <- Z.negb_odd, Ha.
  - rewrite Z.add_comm, (Z.add_comm (a / 2)). apply half_sum_even.
    now rewrite <- Z.negb_odd, Hb.
Qed.

(** Two catch-ups that both fire amount to one when, unless the mode is
    NOTHING, the sub-second remainders of the two gaps do not add up to a
    further second and, in WORK mode, the two gaps do not both count an
    odd number of seconds. *)
Lemma reconcile_chain (s : AppState) (t1 t2 : Z) :
  (1 < elapsedSeconds t1 s)%Z ->
  (2000 <= t2 - t1)%Z ->
  (mode s <> NOTHING ->
   ((t1 - lastTickTimestamp s) mod 1000 + (t2 - t1) mod 1000 < 1000)%Z
   /\ (mode s = WORK ->
       Z.odd (elapsedSeconds t1 s) = false
       \/ Z.odd ((t2 - t1) / 1000) = false)) ->
  reconcile (reconcile s t1) t2 = reconcile s t2.
Proof.
  intros He1 Hgap2 Hfit.
  assert (He2 : (2 <= (t2 - t1) / 1000)%Z)
    by (apply Z.div_le_lower_bound; lia).
  assert (Hstep : elapsedSeconds t2 (reconcile s t1) = ((t2 - t1) / 1000)%Z).
  { unfold elapsedSeconds. rewrite reconcile_fires by exact He1.
    now rewrite catchUpUpdate_timestamp. }
  assert (He : (1 < elapsedSeconds t2 s)%Z).
  { unfold elapsedSeconds in *.
    apply Z.lt_le_trans with ((t1 - lastTickTimestamp s) / 1000)%Z;
      [exact He1 | apply Z.div_le_mono; lia]. }
  assert (Hsum : mode s <> NOTHING ->
            elapsedSeconds t2 s
            = (elapsedSeconds t1 s + (t2 - t1) / 1000)%Z).
  { intros Hmode. destruct (Hfit Hmode) as [Hcarry _]. unfold elapsedSeconds.
    rewrite <- (seconds_without_carry _ _ Hcarry). f_equal. lia. }
  rewrite (reconcile_fires (reconcile s t1) t2) by (rewrite Hstep; lia).
  rewrite Hstep.
  rewrite (reconcile_fires s t2) by exact He.
  rewrite (reconcile_fires s t1) by exact He1.
  destruct s as [w p m t0 q i]. unfold catchUpUpdate.
  cbn [mode workElapsedSeconds playBalanceSeconds quests inventory] in *.
  destruct m.
  - rewrite Hsum by discriminate.
    set (e1 := elapsedSeconds t1 _) in *. set (e2 := ((t2 - t1) / 1000)%Z) in *.
    destruct (Hfit ltac:(discriminate)) as [_ Hparity].
    simpl. rewrite !Math_floor_half.
    rewrite (half_sum_not_both_odd e1 e2 (Hparity eq_refl)).
    rewrite !ofZ_plus. f_equal; ring.
  - rewrite Hsum by discriminate.
    set (e1 := elapsedSeconds t1 _) in *. set (e2 := ((t2 - t1) / 1000)%Z) in *.
    cbn [fst]. rewrite <- (Math_max_decay p e1 e2) by lia.
    destruct (strict_eq (Math_max 0 (p - ofZ e1)) 0) eqn:Hend; simpl.
    + apply strict_eq_true in Hend. rewrite Hend.
      assert (Hzero : Math_max 0 (0 - ofZ e2) = 0).
      { apply Math_max_floor_low.
        pose proof (inject_Z_nonneg e2 ltac:(lia)). qc2q. lra. }
      rewrite Hzero.
      replace (strict_eq 0 0) with true by (symmetry; now apply strict_eq_true).
      reflexivity.
    + reflexivity.
  - reflexivity.
Qed.

(** Reconciling again at the same instant changes nothing. *)
Lemma reconcile_again (s : AppState) (t : Z) :
  reconcile (reconcile s t) t = reconcile s t.
Proof.
  destruct (Z_lt_le_dec 1 (elapsedSeconds t s)) as [Hlt | Hle].
  - apply reconcile_skips. rewrite elapsedSeconds_now; [lia|].
    rewrite reconcile_fires by exact Hlt. apply catchUpUpdate_timestamp.
  - rewrite (reconcile_skips s t Hle). apply reconcile_skips, Hle.
Qed.

End Additivity.

(** Two reconciliations in a row differ from the direct one when the
    sub-second remainders of the gaps add up to a further second (work
    time 4 against 5), when the second gap, after a first catch-up that
    fired, is a single second (the timestamp stays at the first
    reconciliation), and, in WORK mode, when both gaps count an odd
    number of seconds (balance 2 against 3). *)
Lemma reconcile_not_additive :
  ((0 <= 2500 <= 5000)%Z
   /\ mode (reconcile scenarioA 2500) = mode scenarioA
   /\ mode (reconcile (reconcile scenarioA 2500) 5000) = mode scenarioA
   /\ mode (reconcile scenarioA 5000) = mode scenarioA
   /\ reconcile (reconcile scenarioA 2500) 5000 <> reconcile scenarioA 5000)
  /\ ((0 <= 3000 <= 4000)%Z
   /\ mode (reconcile idle 3000) = mode idle
   /\ mode (reconcile (reconcile idle 3000) 4000) = mode idle
   /\ mode (reconcile idle 4000) = mode idle
   /\ reconcile (reconcile idle 3000) 4000 <> reconcile idle 4000)
  /\ ((0 <= 3000 <= 6000)%Z
   /\ mode (reconcile scenarioA 3000) = mode scenarioA
   /\ mode (reconcile (reconcile scenarioA 3000) 6000) = mode scenarioA
   /\ mode (reconcile scenarioA 6000) = mode scenarioA
   /\ reconcile (reconcile scenarioA 3000) 6000 <> reconcile scenarioA 6000).
Proof.
  split; [|split].
  - split; [lia|]. repeat (split; [reflexivity|]).
    intros Heq.
    apply (f_equal (fun s => this (workElapsedSeconds s))) in Heq.
    vm_compute in Heq. discriminate Heq.
  - split; [lia|]. repeat (split; [reflexivity|]).
    intros Heq. apply (f_equal lastTickTimestamp) in Heq.
    vm_compute in Heq. discriminate Heq.
  - split; [lia|]. repeat (split; [reflexivity|]).
    intros Heq.
    apply (f_equal (fun s => this (playBalanceSeconds s))) in Heq.
    vm_compute in Heq. discriminate Heq.
Qed.

(** C5, amended. For a snapshot last ticked at t0 and times
    t0 <= t1 <= t2, if the mode does not change across the
    reconciliations, reconciling at t1 and then at t2 gives the same
    snapshot as reconciling at t2, provided that, when the first
    reconciliation fires (more than one whole second in t1 - t0), either
    t2 = t1, or the second gap is at least two seconds and, unless the
    mode is NOTHING, the sub-second remainders of the two gaps add up to
    less than a second and, in WORK mode, the two gaps do not both count
    an odd number of whole seconds. *)
Theorem reconcile_additive (s : AppState) (t1 t2 : Z) :
  (lastTickTimestamp s <= t1 <= t2)%Z ->
  mode (reconcile s t1) = mode s ->
  mode (reconcile (reconcile s t1) t2) = mode s ->
  ((1 < elapsedSeconds t1 s)%Z ->
   t2 = t1
   \/ ((2000 <= t2 - t1)%Z
       /\ (mode s <> NOTHING ->
           ((t1 - lastTickTimestamp s) mod 1000 + (t2 - t1) mod 1000 < 1000)%Z
           /\ (mode s = WORK ->
               Z.odd (elapsedSeconds t1 s) = false
               \/ Z.odd ((t2 - t1) / 1000) = false)))) ->
  reconcile (reconcile s t1) t2 = reconcile s t2.
Proof.
  intros _ _ _ Hfit.
  destruct (Z_lt_le_dec 1 (elapsedSeconds t1 s)) as [Hfires | Hskips].
  - destruct (Hfit Hfires) as [-> | [Hgap2 Hrest]].
    + apply reconcile_again.
    + now apply reconcile_chain.
  - now rewrite (reconcile_skips s t1 Hskips).
Qed.

Lemma reconcile_additive_witness :
  (1 < elapsedSeconds 4100 working)%Z
  /\ Z.odd (elapsedSeconds 4100 working) = true
  /\ reconcile (reconcile working 4100) 8200 = reconcile working 8200.
Proof.
  split; [reflexivity|]. split; [reflexivity|].
  apply (reconcile_additive working 4100 8200).
  - split; vm_compute; discriminate.
  - reflexivity.
  - reflexivity.
  - intros _. right. split; [vm_compute; discriminate|].
    intros _. split; [reflexivity|].
    intros _. right. reflexivity.
Defined.

(** ** The balance under sequences of operations *)

Section Solvency.

Lemma reconcile_solvent (s : AppState) (now : Z) :
  solvent s -> solvent (reconcile s now).
Proof.
  intros [Hbal Hinv].
  destruct (Z_lt_le_dec 1 (elapsedSeconds now s)) as [Hlt | Hle].
  - rewrite reconcile_fires by exact Hlt. unfold catchUpUpdate, solvent.
    destruct (mode s); simpl; split; try assumption.
    + rewrite Math_floor_half. apply Qcplus_nonneg; [exact Hbal|].
      apply ofZ_nonneg, Z.div_pos; lia.
    + apply Math_max_l.
  - rewrite reconcile_skips by exact Hle. split; assumption.
Qed.

Lemma tick_solvent (s : AppState) (currentTime : Z) :
  solvent s -> solvent (fst (tick currentTime s)).
Proof.
  intros [Hbal Hinv]. unfold tick, solvent.
  destruct (mode s); simpl; split; try assumption.
  - apply Qcplus_nonneg; [exact Hbal|]. vm_compute. discriminate.
  - apply Math_max_l.
Qed.

Lemma applyPenalty_solvent (s : AppState) :
  solvent s -> solvent (applyPenalty s).
Proof.
  intros [Hbal Hinv]. unfold applyPenalty, solvent. simpl.
  split; [apply Math_max_l | exact Hinv].
Qed.

Lemma useInventoryItems_solvent (ids : list string) (s : AppState) :
  solvent s -> solvent (useInventoryItems ids s).
Proof.
  intros [Hbal Hinv]. split.
  - rewrite useInventoryItems_balance.
    apply Qcplus_nonneg; [exact Hbal|].
    apply Qcmult_nonneg; [now apply minutesOf_nonneg|].
    apply ofZ_nonneg. lia.
  - unfold useInventoryItems. simpl.
    rewrite Forall_forall in *. intros item Hitem.
    apply filter_In in Hitem. apply Hinv, Hitem.
Qed.

Lemma step_solvent (s : AppState) (op : Op) : solvent s -> solvent (step s op).
Proof.
  intros Hs. destruct op; simpl.
  - now apply reconcile_solvent.
  - now apply tick_solvent.
  - now apply applyPenalty_solvent.
  - now apply useInventoryItems_solvent.
Qed.

Lemma run_solvent (ops : list Op) (s : AppState) :
  solvent s -> solvent (run ops s).
Proof.
  unfold run. revert s.
  induction ops as [|op ops IH]; intros s Hs; simpl.
  - exact Hs.
  - apply IH, step_solvent, Hs.
Qed.

End Solvency.

(** Redeeming an inventory item of -1 minutes from balance 0 leaves a
    balance of -60 seconds. *)
Lemma redeem_negative_item :
  0 <= playBalanceSeconds debt
  /\ playBalanceSeconds (run [Redeem ["a"%string]] debt) < 0
  /\ playBalanceSeconds (run [Redeem ["a"%string]] debt) = ofZ (-60).
Proof.
  split; [vm_compute; discriminate|].
  split; [vm_compute; reflexivity | qc_compute].
Qed.

(** C1, amended. Starting from a snapshot whose balance is not negative and
    whose inventory items all carry non-negative minutes, the balance is
    not negative after any finite sequence of catch-up reconciliations,
    per-second ticks, penalties and redemptions. *)
Theorem balance_never_negative (ops : list Op) (s : AppState) :
  0 <= playBalanceSeconds s ->
  Forall (fun item => 0 <= minutes item) (inventory s) ->
  0 <= playBalanceSeconds (run ops s).
Proof.
  intros Hbal Hinv. apply (run_solvent ops s). split; assumption.
Qed.

Lemma balance_never_negative_witness :
  0 <= playBalanceSeconds (run busyDay scenarioE).
Proof.
  apply (balance_never_negative busyDay scenarioE).
  - vm_compute. discriminate.
  - repeat constructor; vm_compute; discriminate.
Defined.

(** ** Reward ledger: adding quests *)

(** The provider appends quests with a zero, a negative and a fractional
    reward. *)
Lemma addQuest_accepts_any_reward :
  addQuest "u" "nap" 0 idle <> idle
  /\ quests (addQuest "u" "nap" 0 idle) = [mkQuest "u" "nap" 0]
  /\ quests (addQuest "u" "nap" (ofZ (-5)) idle) = [mkQuest "u" "nap" (ofZ (-5))]
  /\ quests (addQuest "u" "nap" (Q2Qc (3 # 2)) idle)
     = [mkQuest "u" "nap" (Q2Qc (3 # 2))].
Proof.
  split; [|repeat split].
  intros Heq. apply (f_equal quests) in Heq. discriminate Heq.
Qed.

(** C9, amended. [addQuest] itself checks nothing: for every title and
    every reward it appends a quest carrying them.  Rejection is done by
    its caller, the quest form: when the minutes field does not parse to
    an integer or parses to a non-positive one, [handleSubmit] shows an
    error, does not call [addQuest] and leaves the state unchanged; and
    whenever the form does change the state, it appends a quest whose
    reward is a positive integer. *)
Theorem addQuest_validation_in_form :
  (forall (uuid title : string) (reward : number) (s : AppState),
     addQuest uuid title reward s
     = {| workElapsedSeconds := workElapsedSeconds s;
          playBalanceSeconds := playBalanceSeconds s;
          mode := mode s;
          lastTickTimestamp := lastTickTimestamp s;
          quests := quests s ++ [mkQuest uuid title reward];
          inventory := inventory s |})
  /\ (forall (uuid title field : string) (s : AppState),
     (parseInt field = None
      \/ exists m, parseInt field = Some m /\ (m <= 0)%Z) ->
     fst (AddQuestPage.handleSubmit uuid title field s) = s
     /\ snd (AddQuestPage.handleSubmit uuid title field s) <> EmptyString)
  /\ (forall (uuid title field : string) (s : AppState),
     fst (AddQuestPage.handleSubmit uuid title field s) = s
     \/ exists m, (0 < m)%Z
        /\ parseInt field = Some m
        /\ fst (AddQuestPage.handleSubmit uuid title field s)
           = addQuest uuid (trim title) (ofZ m) s).
Proof.
  split; [reflexivity|]. split.
  - intros uuid title field s Hbad. unfold AddQuestPage.handleSubmit.
    destruct (trim title) as [|c rest]; [split; [reflexivity | discriminate]|].
    destruct Hbad as [-> | (m & -> & Hm)].
    + split; [reflexivity | discriminate].
    + replace (m <=? 0)%Z with true by (symmetry; apply Z.leb_le, Hm).
      split; [reflexivity | discriminate].
  - intros uuid title field s. unfold AddQuestPage.handleSubmit.
    destruct (trim title) as [|c rest] eqn:Htrim; [left; reflexivity|].
    destruct (parseInt field) as [m|]; [|left; reflexivity].
    destruct (m <=? 0)%Z eqn:Hm; [left; reflexivity|].
    right. exists m. apply Z.leb_gt in Hm. repeat split; assumption.
Qed.

Lemma addQuest_validation_in_form_witness :
  parseInt "-3" = Some (-3)%Z
  /\ fst (AddQuestPage.handleSubmit "u" " nap " "-3" idle) = idle.
Proof.
  split; [reflexivity|].
  destruct addQuest_validation_in_form as (_ & Hreject & _).
  apply (Hreject "u" " nap " "-3" idle)%string.
  right. exists (-3)%Z. split; [reflexivity | lia].
Defined.

(** ** Quests: deleting and claiming *)

Section Quests.

Lemma filter_keeps_all {A : Type} (f : A -> bool) (l : list A) :
  (forall x, In x l -> f x = true) -> filter f l = l.
Proof.
  induction l as [|x l IH]; intros Hall; simpl; [reflexivity|].
  rewrite (Hall x (or_introl eq_refl)).
  rewrite IH by (intros y Hy; apply Hall; right; exact Hy). reflexivity.
Qed.

Lemma filter_drops_all {A : Type} (f : A -> bool) (l : list A) :
  (forall x, In x l -> f x = false) -> filter f l = [].
Proof.
  induction l as [|x l IH]; intros Hall; simpl; [reflexivity|].
  rewrite (Hall x (or_introl eq_refl)).
  apply IH. intros y Hy. apply Hall. right. exact Hy.
Qed.

Lemma filter_twice {A : Type} (f : A -> bool) (l : list A) :
  filter f (filter f l) = filter f l.
Proof.
  apply filter_keeps_all. intros x Hx. apply filter_In in Hx. apply Hx.
Qed.

Lemma includes_single (a b : string) :
  includes [a] b = true <-> b = a.
Proof.
  rewrite includes_In. simpl. split.
  - intros [Heq | []]. symmetry. exact Heq.
  - intros ->. left. reflexivity.
Qed.

Lemma includes_false (ids : list string) (i : string) :
  includes ids i = false <-> ~ In i ids.
Proof.
  rewrite <- includes_In. destruct (includes ids i); split; congruence.
Qed.

End Quests.

(** X1. [deleteQuest] removes exactly the quests carrying the id, changes
    nothing when no quest carries it, gives the same result when repeated,
    and never touches the inventory, the balance or the timer. *)
Theorem deleteQuest_removes (qid : string) (s : AppState) :
  (forall q, In q (quests (deleteQuest qid s))
             <-> In q (quests s) /\ quest_id q <> qid)
  /\ ((forall q, In q (quests s) -> quest_id q <> qid) -> deleteQuest qid s = s)
  /\ deleteQuest qid (deleteQuest qid s) = deleteQuest qid s
  /\ inventory (deleteQuest qid s) = inventory s
  /\ playBalanceSeconds (deleteQuest qid s) = playBalanceSeconds s
  /\ workElapsedSeconds (deleteQuest qid s) = workElapsedSeconds s
  /\ mode (deleteQuest qid s) = mode s
  /\ lastTickTimestamp (deleteQuest qid s) = lastTickTimestamp s.
Proof.
  split.
  { intros q. unfold deleteQuest. simpl. rewrite filter_In, negb_true_iff.
    split; intros [Hin Hq]; split; try exact Hin.
    - intros Heq. apply String.eqb_eq in Heq. congruence.
    - apply String.eqb_neq, Hq. }
  split.
  { intros Habsent. unfold deleteQuest. destruct s as [w p m t q i]. simpl in *.
    f_equal. apply filter_keeps_all. intros x Hx.
    apply negb_true_iff, String.eqb_neq, Habsent, Hx. }
  split.
  { unfold deleteQuest. simpl. now rewrite filter_twice. }
  repeat split.
Qed.

Lemma deleteQuest_removes_witness :
  deleteQuest "q9" questBoard = questBoard
  /\ In readQuest (quests (deleteQuest "q8" questBoard))
  /\ ~ In walkQuest (quests (deleteQuest "q8" questBoard))
  /\ quests (deleteQuest "q8" questBoard) = [readQuest].
Proof.
  destruct (deleteQuest_removes "q9" questBoard) as (_ & Habsent & _).
  destruct (deleteQuest_removes "q8" questBoard) as (Hkept & _).
  split; [|split; [|split]].
  - apply Habsent. intros q [<- | [<- | []]]; discriminate.
  - apply Hkept. split; [left; reflexivity | discriminate].
  - intros Hin. apply Hkept in Hin. destruct Hin as [_ Hid].
    apply Hid. reflexivity.
  - reflexivity.
Defined.

(** X2. Claiming a quest under an identifier no inventory item carries and
    then redeeming that identifier gives back the snapshot with the
    quest's reward, in seconds, added to the balance. *)
Theorem claim_then_redeem (uuid : string) (now : Z) (quest : Quest)
  (s : AppState) :
  (forall item, In item (inventory s) -> id item <> uuid) ->
  useInventoryItems [uuid] (claimQuest uuid now quest s)
  = {| workElapsedSeconds := workElapsedSeconds s;
       playBalanceSeconds :=
         playBalanceSeconds s + rewardMinutes quest * ofZ 60;
       mode := mode s;
       lastTickTimestamp := lastTickTimestamp s;
       quests := quests s;
       inventory := inventory s |}.
Proof.
  intros Hfresh. unfold useInventoryItems, claimQuest.
  cbn [inventory playBalanceSeconds workElapsedSeconds mode
       lastTickTimestamp quests].
  rewrite !filter_app. cbn [filter id].
  assert (Hself : includes [uuid] uuid = true) by now apply includes_single.
  rewrite Hself. cbn [negb app].
  rewrite (filter_drops_all (fun item => includes [uuid] (id item))).
  2:{ intros item Hitem. apply includes_false. simpl.
      intros [Heq | []]. apply (Hfresh item Hitem). symmetry. exact Heq. }
  rewrite (filter_keeps_all (fun item => negb (includes [uuid] (id item)))).
  2:{ intros item Hitem. apply negb_true_iff, includes_false. simpl.
      intros [Heq | []]. apply (Hfresh item Hitem). symmetry. exact Heq. }
  rewrite app_nil_r. f_equal.
  unfold totalMinutes. simpl. ring.
Qed.

Lemma claim_then_redeem_witness :
  playBalanceSeconds
    (useInventoryItems ["c"%string] (claimQuest "c" 50 readQuest scenarioE))
  = playBalanceSeconds scenarioE + rewardMinutes readQuest * ofZ 60.
Proof.
  rewrite (claim_then_redeem "c" 50 readQuest scenarioE); [reflexivity|].
  intros item [<- | [<- | []]]; discriminate.
Defined.

(** X3. A quest can be completed again and again and its rewards outlive
    it: after claiming a quest twice under two distinct fresh identifiers
    and deleting the quest, both entries are in the inventory, and
    redeeming them gives back the inventory and credits twice the reward. *)
Theorem quest_repeatable (u1 u2 : string) (t1 t2 : Z) (quest : Quest)
  (s : AppState) :
  u1 <> u2 ->
  (forall item, In item (inventory s) -> id item <> u1 /\ id item <> u2) ->
  let claimed :=
    deleteQuest (quest_id quest)
      (claimQuest u2 t2 quest (claimQuest u1 t1 quest s)) in
  inventory claimed
  = inventory s
    ++ [mkItem u1 (quest_id quest) (quest_title quest) (rewardMinutes quest) t1;
        mkItem u2 (quest_id quest) (quest_title quest) (rewardMinutes quest) t2]
  /\ inventory (useInventoryItems [u1; u2] claimed) = inventory s
  /\ playBalanceSeconds (useInventoryItems [u1; u2] claimed)
     = playBalanceSeconds s
       + (rewardMinutes quest + rewardMinutes quest) * ofZ 60.
Proof.
  intros Hdiff Hfresh claimed.
  assert (Hinv : inventory claimed
    = inventory s
      ++ [mkItem u1 (quest_id quest) (quest_title quest) (rewardMinutes quest) t1;
          mkItem u2 (quest_id quest) (quest_title quest) (rewardMinutes quest) t2]).
  { unfold claimed, deleteQuest, claimQuest. simpl.
    now rewrite <- app_assoc. }
  assert (Hold : forall item, In item (inventory s) ->
                   includes [u1; u2] (id item) = false).
  { intros item Hitem. apply includes_false.
    destruct (Hfresh item Hitem) as [H1 H2].
    simpl. intros [Heq | [Heq | []]]; congruence. }
  assert (Hu1 : includes [u1; u2] u1 = true) by (apply includes_In; now left).
  assert (Hu2 : includes [u1; u2] u2 = true)
    by (apply includes_In; right; now left).
  split; [exact Hinv|].
  unfold useInventoryItems. cbn [inventory playBalanceSeconds].
  rewrite Hinv, !filter_app. cbn [filter id]. rewrite Hu1, Hu2. cbn [negb app].
  rewrite (filter_drops_all _ _ Hold).
  rewrite (filter_keeps_all (fun item => negb (includes [u1; u2] (id item)))).
  2:{ intros item Hitem. now rewrite (Hold item Hitem). }
  split; [apply app_nil_r|].
  unfold totalMinutes. simpl. unfold claimed. simpl. ring.
Qed.

Lemma quest_repeatable_witness :
  playBalanceSeconds
    (useInventoryItems ["c"%string; "d"%string]
       (deleteQuest (quest_id readQuest)
          (claimQuest "d" 60 readQuest (claimQuest "c" 50 readQuest scenarioE))))
  = playBalanceSeconds scenarioE
    + (rewardMinutes readQuest + rewardMinutes readQuest) * ofZ 60.
Proof.
  apply (quest_repeatable "c" "d" 50 60 readQuest scenarioE).
  - discriminate.
  - intros item [<- | [<- | []]]; split; discriminate.
Defined.

(** ** Redemption as an algebra *)

Section RedeemAlgebra.

Lemma minutesOf_app (ids1 ids2 : list string) (inv : list InventoryItem) :
  minutesOf (ids1 ++ ids2) inv
  = minutesOf ids1 inv
    + minutesOf ids2 (filter (fun item => negb (includes ids1 (id item))) inv).
Proof.
  induction inv as [|item rest IH]; simpl; [ring|].
  rewrite IH.
  destruct (in_dec string_dec (id item) ids1) as [H1 | H1].
  - assert (Hinc : includes ids1 (id item) = true) by now apply includes_In.
    rewrite Hinc. simpl.
    destruct (in_dec string_dec (id item) (ids1 ++ ids2)) as [H12 | H12].
    + ring.
    + exfalso. apply H12, in_or_app. now left.
  - assert (Hinc : includes ids1 (id item) = false) by now apply includes_false.
    rewrite Hinc. simpl.
    destruct (in_dec string_dec (id item) (ids1 ++ ids2)) as [H12 | H12];
      destruct (in_dec string_dec (id item) ids2) as [H2 | H2];
      try ring; exfalso.
    + apply in_app_or in H12. tauto.
    + apply H12, in_or_app. now right.
Qed.

Lemma includes_app (ids1 ids2 : list string) (i : string) :
  includes (ids1 ++ ids2) i = (includes ids1 i || includes ids2 i)%bool.
Proof. unfold includes. apply existsb_app. Qed.

Lemma filter_unlisted_app (ids1 ids2 : list string) (inv : list InventoryItem) :
  filter (fun item => negb (includes ids2 (id item)))
    (filter (fun item => negb (includes ids1 (id item))) inv)
  = filter (fun item => negb (includes (ids1 ++ ids2) (id item))) inv.
Proof.
  induction inv as [|item rest IH]; cbn [filter]; [reflexivity|].
  rewrite includes_app.
  destruct (includes ids1 (id item)) eqn:H1; cbn [negb orb filter].
  - exact IH.
  - destruct (includes ids2 (id item)); cbn [negb]; now rewrite IH.
Qed.

Lemma totalMinutes_split (ids : list string) (inv : list InventoryItem) :
  totalMinutes inv
  = minutesOf ids inv
    + totalMinutes (filter (fun item => negb (includes ids (id item))) inv).
Proof.
  induction inv as [|item rest IH]; simpl.
  - unfold totalMinutes. simpl. ring.
  - rewrite totalMinutes_cons, IH.
    destruct (in_dec string_dec (id item) ids) as [Hin | Hout].
    + assert (Hinc : includes ids (id item) = true) by now apply includes_In.
      rewrite Hinc. simpl. ring.
    + assert (Hinc : includes ids (id item) = false) by now apply includes_false.
      rewrite Hinc. simpl. rewrite totalMinutes_cons. ring.
Qed.

Lemma minutesOf_all (inv : list InventoryItem) :
  minutesOf (map id inv) inv = totalMinutes inv.
Proof.
  rewrite <- totalMinutes_selected. f_equal.
  apply filter_keeps_all. intros item Hitem.
  apply includes_In, in_map, Hitem.
Qed.

End RedeemAlgebra.

(** X4. Redeeming one array of ids and then another is the same as
    redeeming both at once. *)
Theorem useInventoryItems_compose (ids1 ids2 : list string) (s : AppState) :
  useInventoryItems ids2 (useInventoryItems ids1 s)
  = useInventoryItems (ids1 ++ ids2) s.
Proof.
  unfold useInventoryItems.
  cbn [inventory playBalanceSeconds workElapsedSeconds mode
       lastTickTimestamp quests].
  rewrite !totalMinutes_selected, filter_unlisted_app, minutesOf_app.
  f_equal. ring.
Qed.

(** X5. No reward is spent twice: redeeming the same ids a second time
    changes nothing, since the items went with the first redemption. *)
Theorem useInventoryItems_once (ids : list string) (s : AppState) :
  useInventoryItems ids (useInventoryItems ids s) = useInventoryItems ids s.
Proof.
  unfold useInventoryItems at 1.
  assert (Hgone : forall item,
            In item (inventory (useInventoryItems ids s)) ->
            includes ids (id item) = false).
  { intros item Hitem. unfold useInventoryItems in Hitem. simpl in Hitem.
    apply filter_In in Hitem. apply negb_true_iff, Hitem. }
  rewrite (filter_drops_all _ _ Hgone).
  rewrite (filter_keeps_all
             (fun item => negb (includes ids (id item)))
             (inventory (useInventoryItems ids s)))
    by (intros item Hitem; now rewrite (Hgone item Hitem)).
  destruct (useInventoryItems ids s) as [w p m t q i]. simpl.
  f_equal. unfold totalMinutes. simpl. ring.
Qed.

(** X6. Redemption moves value, it creates none: the balance plus sixty
    times the minutes still in the inventory is the same before and
    after. *)
Theorem useInventoryItems_conserves (ids : list string) (s : AppState) :
  playWorth (useInventoryItems ids s) = playWorth s.
Proof.
  unfold playWorth, inventoryMinutes. rewrite useInventoryItems_balance.
  rewrite (totalMinutes_split ids (inventory s)).
  unfold useInventoryItems. simpl. ring.
Qed.

(** X7. Pressing select-all on a selection that does not have as many ids
    as the inventory has items and confirming empties the inventory,
    credits every item, sixty seconds a minute, clears the selection and
    closes the dialog; the total the dialog announced is the one
    credited. *)
Theorem selectAll_then_confirm (selectedIds : list string) (s : AppState) :
  List.length selectedIds <> List.length (inventory s) ->
  let all := InventoryPage.selectAll (inventory s) selectedIds in
  let after := InventoryPage.handleUseConfirm all s in
  inventory (fst after) = []
  /\ playBalanceSeconds (fst after)
     = playBalanceSeconds s + totalMinutes (inventory s) * ofZ 60
  /\ playBalanceSeconds (fst after)
     = playBalanceSeconds s
       + InventoryPage.totalSelectedMinutes (inventory s) all * ofZ 60
  /\ snd after = ([], false).
Proof.
  intros Hlen all after.
  assert (Hall : all = map id (inventory s)).
  { unfold all, InventoryPage.selectAll.
    apply Nat.eqb_neq in Hlen. now rewrite Hlen. }
  unfold after, InventoryPage.handleUseConfirm. cbn [fst snd].
  rewrite Hall. split.
  { unfold useInventoryItems. simpl. apply filter_drops_all.
    intros item Hitem. apply negb_false_iff, includes_In, in_map, Hitem. }
  split.
  { now rewrite useInventoryItems_balance, minutesOf_all. }
  split; [|reflexivity].
  rewrite useInventoryItems_balance.
  unfold InventoryPage.totalSelectedMinutes, InventoryPage.selectedItems.
  fold (totalMinutes
          (filter (fun item => includes (map id (inventory s)) (id item))
             (inventory s))).
  now rewrite totalMinutes_selected.
Qed.

Lemma selectAll_then_confirm_witness :
  inventory
    (fst (InventoryPage.handleUseConfirm
            (InventoryPage.selectAll (inventory scenarioE) ["a"%string])
            scenarioE)) = [].
Proof.
  apply (selectAll_then_confirm ["a"%string] scenarioE).
  simpl. discriminate.
Defined.

(** ** Penalties *)

(** X8. Penalties add up under one floor: after n + 1 penalties the work
    time is max(0, work - 300 (n + 1)) and the balance is
    max(0, balance - 150 (n + 1)); mode, timestamp, quests and inventory
    are untouched. *)
Theorem applyPenalty_repeated (n : nat) (s : AppState) :
  let s' := Nat.iter (S n) applyPenalty s in
  workElapsedSeconds s'
    = Math_max 0 (workElapsedSeconds s - ofZ (300 * Z.of_nat (S n)))
  /\ playBalanceSeconds s'
    = Math_max 0 (playBalanceSeconds s - ofZ (150 * Z.of_nat (S n)))
  /\ mode s' = mode s
  /\ lastTickTimestamp s' = lastTickTimestamp s
  /\ quests s' = quests s
  /\ inventory s' = inventory s.
Proof.
  induction n as [|n IH].
  - simpl. unfold applyPenalty. simpl. rewrite playPenalty_value.
    repeat split.
  - cbv zeta in *. destruct IH as (Hw & Hp & Hm & Ht & Hq & Hi).
    change (Nat.iter (S (S n)) applyPenalty s)
      with (applyPenalty (Nat.iter (S n) applyPenalty s)).
    set (r := Nat.iter (S n) applyPenalty s) in *.
    unfold applyPenalty.
    cbn [workElapsedSeconds playBalanceSeconds mode lastTickTimestamp
         quests inventory].
    rewrite playPenalty_value, Hw, Hp. change PENALTY_SECONDS with (ofZ 300).
    rewrite !Math_max_decay by lia.
    repeat split; try assumption; do 2 f_equal; f_equal; lia.
Qed.

(** X9. A penalty that empties the balance during PLAY does not end the
    play session by itself: the mode is still PLAY with balance 0, and it
    is the next tick that switches to NOTHING and raises the ended
    signal. *)
Theorem applyPenalty_leaves_play_running (s : AppState) (currentTime : Z) :
  mode s = PLAY -> playBalanceSeconds s <= ofZ 150 ->
  mode (applyPenalty s) = PLAY
  /\ playBalanceSeconds (applyPenalty s) = 0
  /\ mode (fst (tick currentTime (applyPenalty s))) = NOTHING
  /\ playBalanceSeconds (fst (tick currentTime (applyPenalty s))) = 0
  /\ snd (tick currentTime (applyPenalty s)) = true.
Proof.
  intros Hmode Hlow.
  assert (Hzero : playBalanceSeconds (applyPenalty s) = 0).
  { unfold applyPenalty. simpl. rewrite playPenalty_value.
    apply Math_max_floor_low. qc2q. lra. }
  assert (Hstill : mode (applyPenalty s) = PLAY) by exact Hmode.
  split; [exact Hstill|]. split; [exact Hzero|].
  unfold tick. rewrite Hstill, Hzero. repeat split.
Qed.

Lemma applyPenalty_leaves_play_running_witness :
  mode (applyPenalty lateInPlay) = PLAY
  /\ playBalanceSeconds (applyPenalty lateInPlay) = 0
  /\ mode (fst (tick 1000 (applyPenalty lateInPlay))) = NOTHING
  /\ playBalanceSeconds (fst (tick 1000 (applyPenalty lateInPlay))) = 0
  /\ snd (tick 1000 (applyPenalty lateInPlay)) = true.
Proof.
  apply (applyPenalty_leaves_play_running lateInPlay 1000).
  - reflexivity.
  - vm_compute. discriminate.
Defined.

(** ** Invariants of the provider *)

Section Invariants.

Lemma Qc_pos_of_nonneg_nonzero (x : number) : 0 <= x -> x <> 0 -> 0 < x.
Proof.
  intros Hle Hne. destruct (Qcle_lt_or_eq _ _ Hle) as [Hlt | Heq].
  - exact Hlt.
  - exfalso. apply Hne. symmetry. exact Heq.
Qed.

Lemma decay_playing (b d : number) :
  strict_eq (Math_max 0 (b - d)) 0 = false -> 0 < Math_max 0 (b - d).
Proof.
  intros Hne. apply strict_eq_false in Hne.
  apply Qc_pos_of_nonneg_nonzero; [apply Math_max_l | exact Hne].
Qed.

Lemma tick_playing (s : AppState) (currentTime : Z) :
  playing (fst (tick currentTime s)).
Proof.
  unfold playing, tick. destruct (mode s); simpl; try discriminate.
  destruct (strict_eq (Math_max 0 (playBalanceSeconds s - 1)) 0) eqn:Hend;
    [discriminate|].
  intros _. now apply decay_playing.
Qed.

Lemma reconcile_playing (s : AppState) (now : Z) :
  playing s -> playing (reconcile s now).
Proof.
  intros Hs.
  destruct (Z_lt_le_dec 1 (elapsedSeconds now s)) as [Hlt | Hle].
  - rewrite reconcile_fires by exact Hlt. unfold playing, catchUpUpdate.
    destruct (mode s); simpl; try discriminate.
    destruct (strict_eq (Math_max 0
                (playBalanceSeconds s - ofZ (elapsedSeconds now s))) 0)
      eqn:Hend; [discriminate|].
    intros _. now apply decay_playing.
  - now rewrite reconcile_skips.
Qed.

Lemma setMode_playing (s : AppState) (now : Z) (target : Mode) :
  playing s -> playing (fst (setMode now target s)).
Proof.
  intros Hs. unfold setMode. destruct target; try (simpl; discriminate).
  destruct (lessEq (playBalanceSeconds s) 0) eqn:Hle; [exact Hs|].
  intros _. simpl. apply lessEq_false, Hle.
Qed.

End Invariants.

(** X10. While the mode is PLAY there is balance left: starting from a
    snapshot with that property, it holds after any sequence of ticks,
    catch-ups, mode requests and quest actions (penalties and redemptions
    set aside); after a tick it holds whatever the snapshot was. *)
Theorem play_needs_balance (actions : list Action) (s : AppState) :
  forallb keepsBalance actions = true ->
  (playing s -> playing (perform actions s))
  /\ (forall currentTime, playing (fst (tick currentTime s))).
Proof.
  intros Hkeep. split; [|intros t; apply tick_playing].
  unfold perform. revert s Hkeep.
  induction actions as [|a rest IH]; intros s Hkeep Hs; simpl; [exact Hs|].
  simpl in Hkeep. apply andb_true_iff in Hkeep. destruct Hkeep as [Ha Hrest].
  apply IH; [exact Hrest|].
  destruct a; simpl in *; try discriminate.
  - apply tick_playing.
  - now apply reconcile_playing.
  - now apply setMode_playing.
  - exact Hs.
  - exact Hs.
  - exact Hs.
Qed.

Lemma play_needs_balance_witness :
  playing (perform eveningOfPlay working).
Proof.
  apply (play_needs_balance eveningOfPlay working).
  - reflexivity.
  - intros Hmode. discriminate Hmode.
Defined.

(** X11. The work time never becomes negative: from a snapshot with
    non-negative work time, it stays non-negative after any sequence of
    provider actions. *)
Theorem work_never_negative (actions : list Action) (s : AppState) :
  0 <= workElapsedSeconds s -> 0 <= workElapsedSeconds (perform actions s).
Proof.
  unfold perform. revert s.
  induction actions as [|a rest IH]; intros s Hs; simpl; [exact Hs|].
  apply IH. destruct a; simpl; try exact Hs.
  - unfold tick. destruct (mode s); simpl; try exact Hs.
    apply Qcplus_nonneg; [exact Hs | vm_compute; discriminate].
  - destruct (Z_lt_le_dec 1 (elapsedSeconds now s)) as [Hlt | Hle].
    + rewrite reconcile_fires by exact Hlt. unfold catchUpUpdate.
      destruct (mode s); simpl; try exact Hs.
      apply Qcplus_nonneg; [exact Hs | apply ofZ_nonneg; lia].
    + now rewrite reconcile_skips.
  - unfold setMode. destruct newMode; simpl; try exact Hs.
    destruct (lessEq (playBalanceSeconds s) 0); exact Hs.
  - apply Math_max_l.
Qed.

Lemma work_never_negative_witness :
  0 <= workElapsedSeconds (perform (AApplyPenalty :: eveningOfPlay) working).
Proof.
  apply (work_never_negative (AApplyPenalty :: eveningOfPlay) working).
  vm_compute. discriminate.
Defined.

(** X12. The catch-up never moves the tick timestamp backwards, and never
    lowers the work time. *)
Theorem reconcile_moves_forward (s : AppState) (now : Z) :
  (lastTickTimestamp s <= lastTickTimestamp (reconcile s now))%Z
  /\ workElapsedSeconds s <= workElapsedSeconds (reconcile s now).
Proof.
  destruct (Z_lt_le_dec 1 (elapsedSeconds now s)) as [Hlt | Hle].
  - rewrite reconcile_fires by exact Hlt. rewrite catchUpUpdate_timestamp.
    split.
    + unfold elapsedSeconds in Hlt.
      destruct (Z_lt_le_dec now (lastTickTimestamp s)) as [Hback | Hfwd];
        [|exact Hfwd].
      exfalso.
      assert ((now - lastTickTimestamp s) / 1000 < 0)%Z
        by (apply Z.div_lt_upper_bound; lia).
      lia.
    + unfold catchUpUpdate. destruct (mode s); simpl; try apply Qcle_refl.
      pose proof (inject_Z_nonneg (elapsedSeconds now s) ltac:(lia)).
      qc2q. lra.
  - rewrite reconcile_skips by exact Hle. split; [lia | apply Qcle_refl].
Qed.

(** ** Runs of the one-second interval *)

Section Ticks.

Lemma tickAll_cons (t : Z) (times : list Z) (s : AppState) :
  tickAll (t :: times) s = tickAll times (fst (tick t s)).
Proof. reflexivity. Qed.

Lemma ofZ_succ (n : nat) : ofZ (Z.of_nat (S n)) = 1 + ofZ (Z.of_nat n).
Proof.
  rewrite Nat2Z.inj_succ, <- Z.add_1_l, ofZ_plus. reflexivity.
Qed.

Lemma tickAll_nothing (times : list Z) (s : AppState) :
  mode s = NOTHING ->
  mode (tickAll times s) = NOTHING
  /\ playBalanceSeconds (tickAll times s) = playBalanceSeconds s
  /\ workElapsedSeconds (tickAll times s) = workElapsedSeconds s.
Proof.
  revert s. induction times as [|t rest IH]; intros s Hmode.
  - repeat split; assumption.
  - rewrite tickAll_cons.
    assert (Hstep : fst (tick t s)
      = {| workElapsedSeconds := workElapsedSeconds s;
           playBalanceSeconds := playBalanceSeconds s;
           mode := NOTHING;
           lastTickTimestamp := t;
           quests := quests s;
           inventory := inventory s |})
      by (unfold tick; now rewrite Hmode).
    rewrite Hstep.
    match goal with
    | |- context [tickAll rest ?s1] => destruct (IH s1 eq_refl) as (Hm & Hb & Hw)
    end.
    repeat split; assumption.
Qed.

Lemma tickAll_play (times : list Z) (s : AppState) :
  mode s = PLAY -> times <> [] ->
  playBalanceSeconds (tickAll times s)
  = Math_max 0 (playBalanceSeconds s - ofZ (Z.of_nat (List.length times)))
  /\ mode (tickAll times s)
     = (if strict_eq (playBalanceSeconds (tickAll times s)) 0
        then NOTHING else PLAY)
  /\ workElapsedSeconds (tickAll times s) = workElapsedSeconds s.
Proof.
  revert s. induction times as [|t rest IH]; intros s Hmode Hne;
    [congruence|].
  rewrite tickAll_cons.
  set (b1 := Math_max 0 (playBalanceSeconds s - 1)).
  assert (Hstep : fst (tick t s)
    = {| workElapsedSeconds := workElapsedSeconds s;
         playBalanceSeconds := b1;
         mode := if strict_eq b1 0 then NOTHING else PLAY;
         lastTickTimestamp := t;
         quests := quests s;
         inventory := inventory s |})
    by (unfold tick; now rewrite Hmode).
  assert (Hdecay : Math_max 0 (b1 - ofZ (Z.of_nat (List.length rest)))
    = Math_max 0 (playBalanceSeconds s
                  - ofZ (Z.of_nat (List.length (t :: rest))))).
  { unfold b1. change 1 with (ofZ 1). rewrite Math_max_decay by lia.
    do 3 f_equal. simpl List.length. lia. }
  destruct rest as [|t' rest'].
  - rewrite Hstep. simpl. repeat split.
  - remember (fst (tick t s)) as s1 eqn:Hs1.
    assert (Hm1 : mode s1 = if strict_eq b1 0 then NOTHING else PLAY)
      by (rewrite Hstep; reflexivity).
    assert (Hb1 : playBalanceSeconds s1 = b1)
      by (rewrite Hstep; reflexivity).
    assert (Hw1 : workElapsedSeconds s1 = workElapsedSeconds s)
      by (rewrite Hstep; reflexivity).
    clear Hs1 Hstep. rewrite <- Hdecay.
    destruct (strict_eq b1 0) eqn:Hend.
    + destruct (tickAll_nothing (t' :: rest') s1 Hm1) as (Hm & Hb & Hw).
      rewrite Hm, Hb, Hw, Hb1, Hend.
      apply strict_eq_true in Hend. rewrite Hend.
      repeat split; try assumption. symmetry. apply Math_max_floor_low.
      pose proof (inject_Z_nonneg (Z.of_nat (List.length (t' :: rest')))
                    ltac:(lia)).
      qc2q. lra.
    + destruct (IH s1 Hm1) as (Hb & Hm & Hw); [discriminate|].
      rewrite Hm, Hb, Hw, Hb1. repeat split; assumption.
Qed.

Lemma decay_ends_iff (b d : number) :
  strict_eq (Math_max 0 (b - d)) 0 = lessEq b d.
Proof.
  destruct (lessEq b d) eqn:Hle.
  - apply lessEq_true in Hle. apply strict_eq_true, Math_max_floor_low.
    qc2q. lra.
  - apply lessEq_false in Hle. apply strict_eq_false.
    rewrite Math_max_floor_high by (qc2q; lra).
    intros Heq. apply Qclt_not_eq in Hle. apply Hle.
    transitivity (d + (b - d)); [rewrite Heq|]; ring.
Qed.

End Ticks.

Section WorkTicks.

Lemma tickAll_work (times : list Z) (s : AppState) :
  mode s = WORK ->
  workElapsedSeconds (tickAll times s)
    = workElapsedSeconds s + ofZ (Z.of_nat (List.length times))
  /\ playBalanceSeconds (tickAll times s)
    = playBalanceSeconds s
      + ofZ (Z.of_nat (List.length times)) * PLAY_GAIN_RATE
  /\ mode (tickAll times s) = WORK.
Proof.
  revert s. induction times as [|t rest IH]; intros s Hmode.
  - unfold tickAll. cbn [fold_left List.length].
    change (ofZ (Z.of_nat 0)) with 0.
    split; [ring | split; [ring | exact Hmode]].
  - rewrite tickAll_cons.
    assert (Hstep : fst (tick t s)
      = {| workElapsedSeconds := workElapsedSeconds s + 1;
           playBalanceSeconds := playBalanceSeconds s + PLAY_GAIN_RATE;
           mode := WORK;
           lastTickTimestamp := t;
           quests := quests s;
           inventory := inventory s |})
      by (unfold tick; now rewrite Hmode).
    rewrite Hstep.
    match goal with
    | |- context [tickAll rest ?s1] => destruct (IH s1 eq_refl) as (Hw & Hb & Hm)
    end.
    rewrite Hw, Hb, Hm. cbn [workElapsedSeconds playBalanceSeconds].
    change (List.length (t :: rest)) with (S (List.length rest)).
    rewrite ofZ_succ. repeat split; ring.
Qed.

End WorkTicks.

(** X13. In WORK mode n ticks add n seconds to the work time and exactly
    n halves of a second to the balance, and the mode stays WORK. *)
Theorem tickAll_work_exact (times : list Z) (s : AppState) :
  mode s = WORK ->
  workElapsedSeconds (tickAll times s)
    = workElapsedSeconds s + ofZ (Z.of_nat (List.length times))
  /\ playBalanceSeconds (tickAll times s)
    = playBalanceSeconds s
      + ofZ (Z.of_nat (List.length times)) * PLAY_GAIN_RATE
  /\ mode (tickAll times s) = WORK.
Proof.
  intros Hmode.
  destruct (tickAll_work times s Hmode) as (Hw & Hb & Hm).
  split; [exact Hw | split; [exact Hb | exact Hm]].
Qed.

Lemma tickAll_work_exact_witness :
  playBalanceSeconds (tickAll threeTicks scenarioA)
  = playBalanceSeconds scenarioA
    + ofZ (Z.of_nat (List.length threeTicks)) * PLAY_GAIN_RATE.
Proof.
  apply (tickAll_work_exact threeTicks scenarioA). reflexivity.
Defined.

(** X14. In PLAY mode n >= 1 ticks leave the balance at
    max(0, balance - n); the session has ended (mode NOTHING) exactly when
    the balance was at most n, and the work time has not moved. *)
Theorem tickAll_play_runs_out (times : list Z) (s : AppState) :
  mode s = PLAY -> times <> [] ->
  playBalanceSeconds (tickAll times s)
    = Math_max 0 (playBalanceSeconds s - ofZ (Z.of_nat (List.length times)))
  /\ mode (tickAll times s)
    = (if lessEq (playBalanceSeconds s) (ofZ (Z.of_nat (List.length times)))
       then NOTHING else PLAY)
  /\ workElapsedSeconds (tickAll times s) = workElapsedSeconds s.
Proof.
  intros Hmode Hne.
  destruct (tickAll_play times s Hmode Hne) as (Hb & Hm & Hw).
  split; [exact Hb|]. split; [|exact Hw].
  rewrite Hm, Hb. now rewrite decay_ends_iff.
Qed.

Lemma tickAll_play_runs_out_witness :
  mode (tickAll threeTicks scenarioB)
  = (if lessEq (playBalanceSeconds scenarioB)
          (ofZ (Z.of_nat (List.length threeTicks)))
     then NOTHING else PLAY).
Proof.
  apply (tickAll_play_runs_out threeTicks scenarioB).
  - reflexivity.
  - discriminate.
Defined.

(** X15. Catching up agrees with ticking: when the catch-up fires over e
    elapsed seconds, it leaves the same work time, balance and mode as e
    ticks would, in PLAY and NOTHING mode for every e, and in WORK mode
    when e is even. *)
Theorem reconcile_agrees_with_ticks (times : list Z) (s : AppState) (t : Z) :
  (1 < elapsedSeconds t s)%Z ->
  Z.of_nat (List.length times) = elapsedSeconds t s ->
  (mode s = WORK -> Z.even (elapsedSeconds t s) = true) ->
  workElapsedSeconds (reconcile s t) = workElapsedSeconds (tickAll times s)
  /\ playBalanceSeconds (reconcile s t) = playBalanceSeconds (tickAll times s)
  /\ mode (reconcile s t) = mode (tickAll times s).
Proof.
  intros Hlt Hlen Heven. rewrite reconcile_fires by exact Hlt.
  unfold catchUpUpdate. destruct (mode s) eqn:Hmode; cbn [fst
    workElapsedSeconds playBalanceSeconds mode].
  - destruct (tickAll_work times s Hmode) as (Hw & Hb & Hm).
    rewrite Hw, Hb, Hm, Hlen, Math_floor_half_even by now apply Heven.
    repeat split.
  - assert (Hne : times <> []).
    { intros ->. simpl in Hlen. lia. }
    destruct (tickAll_play times s Hmode Hne) as (Hb & Hm & Hw).
    rewrite Hm, Hb, Hw, Hlen. repeat split.
  - destruct (tickAll_nothing times s Hmode) as (Hm & Hb & Hw).
    rewrite Hm, Hb, Hw. repeat split.
Qed.

Lemma reconcile_agrees_with_ticks_witness :
  playBalanceSeconds (reconcile scenarioB 3000)
  = playBalanceSeconds (tickAll threeTicks scenarioB).
Proof.
  apply (reconcile_agrees_with_ticks threeTicks scenarioB 3000).
  - reflexivity.
  - reflexivity.
  - intros Hwork. discriminate Hwork.
Defined.

(** ** The sibling routine [calculateElapsedTime] *)

Section ElapsedTime.

Import ElapsedTimeProvider.

Lemma calculateElapsedTime_skips (t : Z) (s : AppState) :
  ((t - lastTickTimestamp s) / 1000 <= 0)%Z ->
  calculateElapsedTime t s = (s, false).
Proof.
  intros Hle. unfold calculateElapsedTime.
  replace ((t - lastTickTimestamp s) / 1000 <=? 0)%Z with true; [reflexivity|].
  symmetry. apply Z.leb_le, Hle.
Qed.

Lemma calculateElapsedTime_fires (t : Z) (s : AppState) :
  (0 < (t - lastTickTimestamp s) / 1000)%Z ->
  let e := ((t - lastTickTimestamp s) / 1000)%Z in
  calculateElapsedTime t s
  = match mode s with
    | WORK =>
        (mkAppState (workElapsedSeconds s + ofZ e)
           (playBalanceSeconds s + ofZ e * PLAY_GAIN_RATE)
           WORK t (quests s) (inventory s), false)
    | PLAY =>
        (mkAppState (workElapsedSeconds s)
           (Math_max 0 (playBalanceSeconds s - ofZ e))
           (if strict_eq (Math_max 0 (playBalanceSeconds s - ofZ e)) 0
            then NOTHING else PLAY)
           t (quests s) (inventory s),
         strict_eq (Math_max 0 (playBalanceSeconds s - ofZ e)) 0)
    | NOTHING =>
        (mkAppState (workElapsedSeconds s) (playBalanceSeconds s)
           NOTHING t (quests s) (inventory s), false)
    end.
Proof.
  intros Hpos e. unfold calculateElapsedTime.
  replace ((t - lastTickTimestamp s) / 1000 <=? 0)%Z with false;
    [reflexivity|].
  symmetry. apply Z.leb_gt, Hpos.
Qed.

Lemma calculateElapsedTime_timestamp (t : Z) (s : AppState) :
  (0 < (t - lastTickTimestamp s) / 1000)%Z ->
  lastTickTimestamp (fst (calculateElapsedTime t s)) = t.
Proof.
  intros Hpos. rewrite calculateElapsedTime_fires by exact Hpos.
  destruct (mode s); reflexivity.
Qed.

End ElapsedTime.

(** X16. [calculateElapsedTime] does nothing when less than a whole second
    has passed (or the clock went backwards), and running it twice at the
    same instant is the same as running it once. *)
Theorem calculateElapsedTime_idempotent (t : Z) (s : AppState) :
  (((t - lastTickTimestamp s) / 1000 <= 0)%Z ->
     ElapsedTimeProvider.calculateElapsedTime t s = (s, false))
  /\ fst (ElapsedTimeProvider.calculateElapsedTime t
            (fst (ElapsedTimeProvider.calculateElapsedTime t s)))
     = fst (ElapsedTimeProvider.calculateElapsedTime t s).
Proof.
  split; [apply calculateElapsedTime_skips|].
  destruct (Z_lt_le_dec 0 ((t - lastTickTimestamp s) / 1000)) as [Hpos | Hle].
  - rewrite (calculateElapsedTime_skips t
               (fst (ElapsedTimeProvider.calculateElapsedTime t s)));
      [reflexivity|].
    rewrite calculateElapsedTime_timestamp by exact Hpos.
    rewrite Z.sub_diag, Z.div_0_l by lia. lia.
  - rewrite (calculateElapsedTime_skips t s Hle). simpl.
    now rewrite (calculateElapsedTime_skips t s Hle).
Qed.

Lemma calculateElapsedTime_idempotent_witness :
  ElapsedTimeProvider.calculateElapsedTime 500 clockSkew = (clockSkew, false).
Proof.
  apply (proj1 (calculateElapsedTime_idempotent 500 clockSkew)).
  vm_compute. discriminate.
Defined.

(** X17. [calculateElapsedTime] is additive over whole seconds: when the
    first gap is a whole number of seconds and the second gap is at least
    one second, running it at t1 and then at t2 gives the same snapshot as
    running it at t2, in every mode and with no loss of half seconds. *)
Theorem calculateElapsedTime_additive (s : AppState) (t1 t2 : Z) :
  ((t1 - lastTickTimestamp s) mod 1000 = 0)%Z ->
  (0 <= t1 - lastTickTimestamp s)%Z ->
  (1000 <= t2 - t1)%Z ->
  fst (ElapsedTimeProvider.calculateElapsedTime t2
         (fst (ElapsedTimeProvider.calculateElapsedTime t1 s)))
  = fst (ElapsedTimeProvider.calculateElapsedTime t2 s).
Proof.
  intros Hwhole Hgap1 Hgap2.
  pose proof (whole_seconds_split (lastTickTimestamp s) t1 t2 Hwhole) as Hsplit.
  assert (He1 : (0 <= (t1 - lastTickTimestamp s) / 1000)%Z)
    by (apply Z.div_pos; lia).
  assert (He2 : (1 <= (t2 - t1) / 1000)%Z)
    by (apply Z.div_le_lower_bound; lia).
  destruct (Z_lt_le_dec 0 ((t1 - lastTickTimestamp s) / 1000)) as [Hpos | Hzero].
  - assert (Hstep :
      ((t2 - lastTickTimestamp
                (fst (ElapsedTimeProvider.calculateElapsedTime t1 s))) / 1000
       = (t2 - t1) / 1000)%Z)
      by now rewrite calculateElapsedTime_timestamp.
    rewrite (calculateElapsedTime_fires t2
               (fst (ElapsedTimeProvider.calculateElapsedTime t1 s)))
      by (rewrite Hstep; lia).
    cbv zeta. rewrite Hstep.
    rewrite (calculateElapsedTime_fires t2 s) by lia.
    cbv zeta. rewrite Hsplit.
    rewrite (calculateElapsedTime_fires t1 s) by exact Hpos.
    cbv zeta.
    set (e1 := ((t1 - lastTickTimestamp s) / 1000)%Z) in *.
    set (e2 := ((t2 - t1) / 1000)%Z) in *.
    destruct s as [w p m t0 q i].
    cbn [mode workElapsedSeconds playBalanceSeconds quests inventory] in *.
    destruct m.
    + simpl. rewrite !ofZ_plus. f_equal; ring.
    + cbn [fst]. rewrite <- (Math_max_decay p e1 e2) by lia.
      destruct (strict_eq (Math_max 0 (p - ofZ e1)) 0) eqn:Hend; simpl.
      * apply strict_eq_true in Hend. rewrite Hend.
        assert (Hnil : Math_max 0 (0 - ofZ e2) = 0).
        { apply Math_max_floor_low.
          pose proof (inject_Z_nonneg e2 ltac:(lia)). qc2q. lra. }
        rewrite Hnil.
        replace (strict_eq 0 0) with true
          by (symmetry; now apply strict_eq_true).
        reflexivity.
      * reflexivity.
    + reflexivity.
  - assert (Hsame : t1 = lastTickTimestamp s).
    { pose proof (Z.div_mod (t1 - lastTickTimestamp s) 1000 ltac:(lia)). lia. }
    rewrite (calculateElapsedTime_skips t1 s) by lia. reflexivity.
Qed.

Lemma calculateElapsedTime_additive_witness :
  fst (ElapsedTimeProvider.calculateElapsedTime 5000
         (fst (ElapsedTimeProvider.calculateElapsedTime 4000 working)))
  = fst (ElapsedTimeProvider.calculateElapsedTime 5000 working).
Proof.
  apply (calculateElapsedTime_additive working 4000 5000);
    [reflexivity | vm_compute; discriminate | vm_compute; discriminate].
Defined.

(** X18. The two reconciliation routines agree whenever the catch-up of the
    provider fires and no half second is at stake: for more than one
    elapsed second, and an even number of them in WORK mode,
    [calculateElapsedTime] and the catch-up return the same snapshot and
    the same ended signal. *)
Theorem calculateElapsedTime_agrees_with_catchUp (t : Z) (s : AppState) :
  (1 < elapsedSeconds t s)%Z ->
  (mode s = WORK -> Z.even (elapsedSeconds t s) = true) ->
  ElapsedTimeProvider.calculateElapsedTime t s = catchUp false t s.
Proof.
  intros Hlt Heven. rewrite catchUp_fires by exact Hlt.
  rewrite calculateElapsedTime_fires by (unfold elapsedSeconds in Hlt; lia).
  cbv zeta. fold (elapsedSeconds t s). unfold catchUpUpdate.
  destruct (mode s) eqn:Hmode; try reflexivity.
  rewrite Math_floor_half_even by now apply Heven. reflexivity.
Qed.

Lemma calculateElapsedTime_agrees_with_catchUp_witness :
  ElapsedTimeProvider.calculateElapsedTime 5000 scenarioB
  = catchUp false 5000 scenarioB.
Proof.
  apply (calculateElapsedTime_agrees_with_catchUp 5000 scenarioB).
  - reflexivity.
  - intros Hwork. discriminate Hwork.
Defined.

(** ** The inventory page: selecting items *)

Section Selection.

Lemma NoDup_snoc {A : Type} (l : list A) (x : A) :
  NoDup l -> ~ In x l -> NoDup (l ++ [x]).
Proof.
  induction 1 as [|y l Hy Hl IH]; intros Hx; simpl.
  - constructor; [intros [] | constructor].
  - constructor.
    + rewrite in_app_iff. intros [Hin | [Heq | []]]; [contradiction|].
      apply Hx. left. symmetry. exact Heq.
    + apply IH. intros Hin. apply Hx. right. exact Hin.
Qed.

End Selection.

(** X19. [toggleSelection] flips the membership of one id and of no other:
    afterwards an id is selected when it is another id that was selected,
    or the toggled id and was not.  It keeps a selection free of
    repetitions, and toggling an unselected id twice gives the selection
    back. *)
Theorem toggleSelection_flips (x : string) (prev : list string) :
  (forall y, In y (InventoryPage.toggleSelection x prev)
             <-> (y <> x /\ In y prev) \/ (y = x /\ ~ In x prev))
  /\ (NoDup prev -> NoDup (InventoryPage.toggleSelection x prev))
  /\ (~ In x prev ->
      InventoryPage.toggleSelection x (InventoryPage.toggleSelection x prev)
      = prev).
Proof.
  unfold InventoryPage.toggleSelection.
  destruct (includes prev x) eqn:Hinc.
  - apply includes_In in Hinc. split; [|split].
    + intros y. rewrite filter_In, negb_true_iff, String.eqb_neq. tauto.
    + intros Hnd. now apply NoDup_filter.
    + intros Hout. contradiction.
  - apply includes_false in Hinc. split; [|split].
    + intros y. rewrite in_app_iff. simpl.
      destruct (string_dec y x) as [-> | Hne].
      * tauto.
      * split; [intros [Hin | [Heq | []]]; [tauto | congruence] | tauto].
    + intros Hnd. now apply NoDup_snoc.
    + intros _.
      assert (Hnow : includes (prev ++ [x]) x = true)
        by (apply includes_In, in_or_app; right; now left).
      rewrite Hnow, filter_app. cbn [filter].
      rewrite String.eqb_refl. cbn [negb].
      rewrite filter_keeps_all; [apply app_nil_r|].
      intros y Hy. apply negb_true_iff, String.eqb_neq. congruence.
Qed.

Lemma toggleSelection_flips_witness :
  InventoryPage.toggleSelection "b"
    (InventoryPage.toggleSelection "b" ["a"%string])
  = ["a"%string].
Proof.
  destruct (toggleSelection_flips "b" ["a"%string]) as (_ & _ & Hback).
  apply Hback. intros [Heq | []]. discriminate Heq.
Defined.

(** X20. [selectAll] selects the id of every inventory item, unless the
    selection already has as many ids as the inventory has items, in
    which case it clears the selection; pressed twice from a selection of
    another size it leaves nothing selected. *)
Theorem selectAll_toggles (inv : list InventoryItem) (selectedIds : list string) :
  (List.length selectedIds <> List.length inv ->
     (forall i, In i (InventoryPage.selectAll inv selectedIds)
                <-> exists item, In item inv /\ id item = i)
     /\ InventoryPage.selectAll inv (InventoryPage.selectAll inv selectedIds)
        = [])
  /\ (List.length selectedIds = List.length inv ->
     InventoryPage.selectAll inv selectedIds = []).
Proof.
  unfold InventoryPage.selectAll. split.
  - intros Hlen. apply Nat.eqb_neq in Hlen. rewrite Hlen. split.
    + intros i. rewrite in_map_iff. split; intros (item & H1 & H2);
        exists item; tauto.
    + now rewrite length_map, Nat.eqb_refl.
  - intros Hlen. apply Nat.eqb_eq in Hlen. now rewrite Hlen.
Qed.

Lemma selectAll_toggles_witness :
  InventoryPage.selectAll (inventory scenarioE)
    (InventoryPage.selectAll (inventory scenarioE) ["a"%string])
  = [].
Proof.
  apply (proj1 (selectAll_toggles (inventory scenarioE) ["a"%string])).
  simpl. discriminate.
Defined.

(** ** Loading the user document *)

(** X21. What the provider stores it reads back: hydrating from the
    document written for a snapshot whose tick timestamp is not zero
    gives that snapshot; a zero or missing timestamp is replaced by the
    current time, and every other missing field takes its initial value,
    so that the empty document hydrates to the initial state stamped with
    the current time. *)
Theorem hydrate_stored (loadTime now : Z) (s : AppState) :
  (lastTickTimestamp s <> 0%Z ->
     FirestoreSync.hydrate loadTime now (FirestoreSync.stored s) = s)
  /\ (lastTickTimestamp s = 0%Z ->
     FirestoreSync.hydrate loadTime now (FirestoreSync.stored s)
     = switched now (mode s) s)
  /\ FirestoreSync.hydrate loadTime now
       (FirestoreSync.mkDocument None None None None None None)
     = FirestoreSync.initialState now
  /\ (forall data, now <> 0%Z ->
        lastTickTimestamp (FirestoreSync.hydrate loadTime now data) <> 0%Z).
Proof.
  unfold FirestoreSync.hydrate, FirestoreSync.stored. simpl.
  split; [|split; [|split]].
  - intros Hne. apply Z.eqb_neq in Hne. rewrite Hne. now destruct s.
  - intros Heq. apply Z.eqb_eq in Heq. rewrite Heq. reflexivity.
  - reflexivity.
  - intros data Hnow. destruct (FirestoreSync.doc_lastTickTimestamp data) as [t|];
      [|exact Hnow].
    destruct (t =? 0)%Z eqn:Ht; [exact Hnow | now apply Z.eqb_neq].
Qed.

Lemma hydrate_stored_witness :
  FirestoreSync.hydrate 1 2000 (FirestoreSync.stored working) = working.
Proof.
  apply (proj1 (hydrate_stored 1 2000 working)). discriminate.
Defined.

(** ** The clock face *)

Section Clock.

Lemma Qfloor_sub_Z (q : Q) (z : Z) :
  Qfloor (q - inject_Z z) = (Qfloor q - z)%Z.
Proof.
  destruct q as [n d]. unfold Qminus, Qplus, Qopp, inject_Z, Qfloor. simpl.
  rewrite Z.mul_1_r, Pos.mul_1_r.
  replace (n + - z * Z.pos d)%Z with (n + (- z) * Z.pos d)%Z by lia.
  rewrite Z.div_add by lia. lia.
Qed.

Lemma Qfloor_div_pos (q : Q) (p : positive) :
  Qfloor (q * (1 # p)) = (Qfloor q / Z.pos p)%Z.
Proof.
  destruct q as [n d]. unfold Qmult, Qfloor. simpl.
  rewrite Z.mul_1_r, Pos2Z.inj_mul.
  rewrite Z.div_div by lia. reflexivity.
Qed.

Lemma this_div_pos (x : number) (p : positive) :
  (this (x / ofZ (Z.pos p))%Qc == this x * (1 # p))%Q.
Proof.
  unfold Qcdiv, Qcinv. qc2q. reflexivity.
Qed.

Lemma Qfloor_Qcdiv (x : number) (p : positive) :
  Qfloor (x / ofZ (Z.pos p))%Qc = (Qfloor x / Z.pos p)%Z.
Proof.
  rewrite <- Qfloor_div_pos. apply Qfloor_comp, this_div_pos.
Qed.

Lemma truncate_nonneg (x : number) : 0 <= x -> truncate x = Qfloor x.
Proof.
  intros Hx. unfold truncate.
  destruct (x ?= 0) eqn:Hc; try reflexivity.
  apply Qclt_alt in Hc. exfalso. exact (Qclt_not_le _ _ Hc Hx).
Qed.

Lemma Qcdiv_nonneg (x : number) (p : positive) :
  0 <= x -> 0 <= x / ofZ (Z.pos p).
Proof.
  intros Hx. unfold Qcle. rewrite this_div_pos.
  change (this 0) with 0%Q. unfold Qcle in Hx. change (this 0) with 0%Q in Hx.
  apply Qmult_le_0_compat; [exact Hx | discriminate].
Qed.

Lemma remainder_nonneg (x : number) (p : positive) :
  0 <= x ->
  (this (remainder x (ofZ (Z.pos p)))
   == this x - inject_Z (Z.pos p * (Qfloor x / Z.pos p)))%Q.
Proof.
  intros Hx. unfold remainder.
  rewrite truncate_nonneg by now apply Qcdiv_nonneg.
  rewrite Qfloor_Qcdiv. qc2q. rewrite inject_Z_mult. reflexivity.
Qed.

End Clock.

Lemma clock_parts (x : number) :
  0 <= x ->
  TimerDisplay.hours x = (Qfloor x / 3600)%Z
  /\ TimerDisplay.minutes x = (Qfloor x mod 3600 / 60)%Z
  /\ TimerDisplay.seconds x = (Qfloor x mod 60)%Z.
Proof.
  intros Hx. unfold TimerDisplay.hours, TimerDisplay.minutes, TimerDisplay.seconds.
  split; [apply Qfloor_Qcdiv|]. split.
  - rewrite Qfloor_Qcdiv.
    rewrite (Qfloor_comp _ _ (remainder_nonneg x 3600 Hx)), Qfloor_sub_Z.
    rewrite Z.mod_eq by lia. reflexivity.
  - rewrite (Qfloor_comp _ _ (remainder_nonneg x 60 Hx)), Qfloor_sub_Z.
    rewrite Z.mod_eq by lia. reflexivity.
Qed.

Section ClockText.

Lemma string_length_append (a b : string) :
  String.length (a ++ b) = (String.length a + String.length b)%nat.
Proof.
  induction a as [|c a IH]; simpl; [reflexivity | now rewrite IH].
Qed.

(** Below one hundred, a padded field has two characters and reads back
    as the number it shows. *)
Lemma padded_field (n : Z) :
  (0 <= n < 100)%Z ->
  String.length (padStart0 2 (toString n)) = 2%nat
  /\ parseInt (padStart0 2 (toString n)) = Some n.
Proof.
  intros Hn.
  assert (Hall : forallb
            (fun k => (Nat.eqb (String.length
                                  (padStart0 2 (toString (Z.of_nat k)))) 2
                       && match parseInt (padStart0 2 (toString (Z.of_nat k))) with
                          | Some m => (m =? Z.of_nat k)%Z
                          | None => false
                          end)%bool)
            (seq 0 100) = true)
    by (vm_compute; reflexivity).
  rewrite forallb_forall in Hall.
  specialize (Hall (Z.to_nat n)).
  rewrite Z2Nat.id in Hall by lia.
  assert (Hin : In (Z.to_nat n) (seq 0 100)) by (apply in_seq; lia).
  apply Hall, andb_true_iff in Hin. destruct Hin as [Hlen Hread].
  split; [now apply Nat.eqb_eq|].
  destruct (parseInt (padStart0 2 (toString n))) as [m|]; [|discriminate].
  apply Z.eqb_eq in Hread. now subst.
Qed.

Lemma Qfloor_bounds (x : number) (lo hi : Z) :
  ofZ lo <= x -> x < ofZ hi -> (lo <= Qfloor x < hi)%Z.
Proof.
  intros Hlo Hhi. split.
  - rewrite <- (Qfloor_Z lo). apply Qfloor_resp_le.
    revert Hlo. qc2q. tauto.
  - pose proof (Qfloor_le x) as Hfl. rewrite Zlt_Qlt.
    revert Hhi. qc2q. intros Hhi. lra.
Qed.

End ClockText.

(** X22. For a non-negative number of seconds the clock face splits the
    whole seconds without loss: hours, minutes and seconds are not
    negative, minutes and seconds are below sixty, and
    3600 hours + 60 minutes + seconds is the number of whole seconds;
    the hours are shown exactly from 3600 seconds on. *)
Theorem formatTime_splits (x : number) :
  0 <= x ->
  (TimerDisplay.hours x * 3600 + TimerDisplay.minutes x * 60
   + TimerDisplay.seconds x = Qfloor x)%Z
  /\ (0 <= TimerDisplay.hours x)%Z
  /\ (0 <= TimerDisplay.minutes x < 60)%Z
  /\ (0 <= TimerDisplay.seconds x < 60)%Z
  /\ ((0 <? TimerDisplay.hours x)%Z = true <-> ofZ 3600 <= x).
Proof.
  intros Hx. destruct (clock_parts x Hx) as (Hh & Hm & Hs).
  assert (HF : (0 <= Qfloor x)%Z).
  { rewrite <- (Qfloor_Z 0). apply Qfloor_resp_le. exact Hx. }
  rewrite Hh, Hm, Hs. repeat split; try (Z.div_mod_to_equations; lia).
  - intros Hpos. apply Z.ltb_lt in Hpos.
    assert (H3600 : (3600 <= Qfloor x)%Z) by (Z.div_mod_to_equations; lia).
    pose proof (Qfloor_le x) as Hfl. rewrite Zle_Qle in H3600.
    qc2q. lra.
  - intros Hbig. apply Z.ltb_lt.
    assert (H3600 : (3600 <= Qfloor x)%Z).
    { rewrite <- (Qfloor_Z 3600). apply Qfloor_resp_le.
      revert Hbig. qc2q. tauto. }
    Z.div_mod_to_equations. lia.
Qed.

Lemma formatTime_splits_witness :
  (TimerDisplay.hours (ofZ 3725) * 3600 + TimerDisplay.minutes (ofZ 3725) * 60
   + TimerDisplay.seconds (ofZ 3725) = Qfloor (ofZ 3725))%Z.
Proof.
  apply (formatTime_splits (ofZ 3725)). vm_compute. discriminate.
Defined.

(** X23. Under one hour the clock face reads MM:SS: five characters, two
    fields of two characters that read back as the whole minutes and the
    remaining whole seconds.  From one hour up to a hundred hours it reads
    HH:MM:SS, eight characters. *)
Theorem formatTime_shape (x : number) :
  (0 <= x -> x < ofZ 3600 ->
     exists mm ss,
       TimerDisplay.formatTime x = (mm ++ ":" ++ ss)%string
       /\ String.length mm = 2%nat /\ String.length ss = 2%nat
       /\ parseInt mm = Some (Qfloor x / 60)%Z
       /\ parseInt ss = Some (Qfloor x mod 60)%Z
       /\ String.length (TimerDisplay.formatTime x) = 5%nat)
  /\ (ofZ 3600 <= x -> x < ofZ 360000 ->
     String.length (TimerDisplay.formatTime x) = 8%nat).
Proof.
  split.
  - intros Hx Hhour.
    destruct (clock_parts x Hx) as (Hh & Hm & Hs).
    destruct (Qfloor_bounds x 0 3600 Hx Hhour) as [HF0 HF1].
    assert (Hhours : TimerDisplay.hours x = 0%Z)
      by (rewrite Hh; apply Z.div_small; lia).
    assert (Hmin : TimerDisplay.minutes x = (Qfloor x / 60)%Z)
      by (rewrite Hm, Z.mod_small by lia; reflexivity).
    destruct (padded_field (Qfloor x / 60)) as [Hlm Hrm];
      [Z.div_mod_to_equations; lia|].
    destruct (padded_field (Qfloor x mod 60)) as [Hls Hrs];
      [Z.div_mod_to_equations; lia|].
    exists (padStart0 2 (toString (Qfloor x / 60))),
           (padStart0 2 (toString (Qfloor x mod 60))).
    unfold TimerDisplay.formatTime. rewrite Hhours.
    change (0 <? 0)%Z with false. cbv iota. rewrite Hmin, Hs.
    repeat split; try assumption.
    rewrite !string_length_append, Hlm, Hls. reflexivity.
  - intros Hbig Hcap.
    assert (Hx : 0 <= x).
    { apply Qcle_trans with (ofZ 3600); [vm_compute; discriminate | exact Hbig]. }
    destruct (clock_parts x Hx) as (Hh & Hm & Hs).
    destruct (Qfloor_bounds x 3600 360000 Hbig Hcap) as [HF0 HF1].
    destruct (padded_field (TimerDisplay.hours x)) as [Hlh _];
      [rewrite Hh; Z.div_mod_to_equations; lia|].
    destruct (padded_field (TimerDisplay.minutes x)) as [Hlm _];
      [rewrite Hm; Z.div_mod_to_equations; lia|].
    destruct (padded_field (TimerDisplay.seconds x)) as [Hls _];
      [rewrite Hs; Z.div_mod_to_equations; lia|].
    unfold TimerDisplay.formatTime.
    replace (0 <? TimerDisplay.hours x)%Z with true
      by (symmetry; apply Z.ltb_lt; rewrite Hh; Z.div_mod_to_equations; lia).
    rewrite !string_length_append, Hlh, Hlm, Hls. reflexivity.
Qed.

Lemma formatTime_shape_witness :
  String.length (TimerDisplay.formatTime (Q2Qc (125 # 2))) = 5%nat
  /\ String.length (TimerDisplay.formatTime (ofZ 3725)) = 8%nat.
Proof.
  destruct (formatTime_shape (Q2Qc (125 # 2))) as [Hshort _].
  destruct (formatTime_shape (ofZ 3725)) as [_ Hlong].
  split.
  - destruct Hshort as (mm & ss & _ & _ & _ & _ & _ & Hlen);
      [vm_compute; discriminate | vm_compute; reflexivity | exact Hlen].
  - apply Hlong; [vm_compute; discriminate | vm_compute; reflexivity].
Defined.

(** ** The quest form: blank titles *)

Section BlankTitle.

Lemma trimStart_blank (s : string) : blank s = true -> trimStart s = EmptyString.
Proof.
  induction s as [|c rest IH]; simpl; [reflexivity|].
  intros Hblank. apply andb_true_iff in Hblank. destruct Hblank as [Hc Hrest].
  rewrite Hc. apply IH, Hrest.
Qed.

End BlankTitle.

(** X24. The quest form rejects a title made of white space only (the
    empty title included), whatever the minutes field holds: the state is
    unchanged and the title error is shown. *)
Theorem handleSubmit_blank_title (uuid title field : string) (s : AppState) :
  blank title = true ->
  AddQuestPage.handleSubmit uuid title field s
  = (s, AddQuestPage.titleRequired).
Proof.
  intros Hblank. unfold AddQuestPage.handleSubmit, trim.
  rewrite (trimStart_blank title Hblank). reflexivity.
Qed.

Lemma handleSubmit_blank_title_witness :
  AddQuestPage.handleSubmit "u" "   " "30" idle
  = (idle, AddQuestPage.titleRequired).
Proof.
  apply (handleSubmit_blank_title "u" "   " "30" idle). reflexivity.
Defined.
